(** * Accessibility analyser: screenshot capture, DOM matching, colour simulation

    A shallow embedding of three pieces of the repository:

    - [utils/web_capture.py], [WebCapture.capture_full_page_screenshot]:
      the native capture attempt, the scroll-and-stitch fallback and the
      two exception handlers around them;
    - [utils/dom_extractor.py], [DOMExtractor.match_image_with_dom];
    - [models/colorblind_simulator.py],
      [ColorBlindSimulator.simulate_colorblindness].

    Python integers are [Z]; [//] is [Z.div] (both round towards minus
    infinity) guarded by an explicit [ZeroDivisionError]; exceptions are
    values of [exn] threaded through a state-and-error monad over the
    state [W] of the outside world (browser session, clock, file system).
    Calls to [logging] have no influence on control flow or results and
    are left out. *)

From stdpp Require Import base option list strings gmap.
From Stdlib Require Import ZArith Lia Bool.

Local Open Scope Z_scope.

(** ** Python exceptions *)

(** The exception classes that the code paths below can meet.  In
    Selenium, [TimeoutException] is a subclass of [WebDriverException]. *)
Inductive exn : Type :=
| AttributeError
| WebDriverException
| TimeoutException
| OSError
| ValueError
| ZeroDivisionError
| TypeError.

Definition isinstance_WebDriverException (e : exn) : bool :=
  match e with
  | WebDriverException | TimeoutException => true
  | _ => false
  end.

(** [except (AttributeError, WebDriverException) as e] *)
Definition native_handler_catches (e : exn) : bool :=
  match e with
  | AttributeError => true
  | _ => isinstance_WebDriverException e
  end.

(** ** State-and-error monad *)

Definition M (W A : Type) : Type := W -> (exn + A) * W.

Definition ret {W A} (a : A) : M W A := fun w => (inr a, w).

Definition raise {W A} (e : exn) : M W A := fun w => (inl e, w).

Definition bind {W A B} (m : M W A) (k : A -> M W B) : M W B :=
  fun w =>
    match m w with
    | (inr a, w') => k a w'
    | (inl e, w') => (inl e, w')
    end.

(** [try: body  except <classes> as e: handler e] *)
Definition try_except {W A} (body : M W A) (catches : exn -> bool)
    (handler : exn -> M W A) : M W A :=
  fun w =>
    match body w with
    | (inr a, w') => (inr a, w')
    | (inl e, w') => if catches e then handler e w' else (inl e, w')
    end.

(** A pure computation that may raise. *)
Definition lift {W A} (r : exn + A) : M W A := fun w => (r, w).

(** An effect that cannot raise. *)
Definition effect {W} (f : W -> W) : M W unit := fun w => (inr tt, f w).

Declare Scope py_scope.
Delimit Scope py_scope with py.
Notation "x <- m ;; k" := (bind m (fun x => k))
  (at level 100, m at next level, k at level 200, right associativity) : py_scope.
Notation "m ;; k" := (bind m (fun _ => k))
  (at level 100, k at level 200, right associativity) : py_scope.

(** ** Python helpers *)

(** Truth value of an optional integer argument ([None] and [0] are false). *)
Definition truthy_int (o : option Z) : bool :=
  match o with
  | Some n => negb (n =? 0)
  | None => false
  end.

(** Truth value of an optional string argument ([None] and [''] are false). *)
Definition truthy_str (o : option string) : bool :=
  match o with
  | Some EmptyString => false
  | Some _ => true
  | None => false
  end.

(** [a // b] *)
Definition floordiv {W} (a b : Z) : M W Z :=
  if b =? 0 then raise ZeroDivisionError else ret (a / b).

(** [range(n)] *)
Definition range (n : Z) : list Z := map Z.of_nat (seq 0 (Z.to_nat n)).

(** ** PIL images *)

Definition color : Type := Z * Z * Z.
Definition black : color := (0, 0, 0).

(** An image is its size and its pixels; [getpixel] is only meaningful
    inside [0 <= x < width], [0 <= y < height]. *)
Record Image : Type := {
  width : Z;
  height : Z;
  getpixel : Z -> Z -> color
}.

(** [Image.new('RGB', (w, h))]: a black canvas; a negative side raises. *)
Definition Image_new (w h : Z) : exn + Image :=
  if (w <? 0) || (h <? 0) then inl ValueError
  else inr {| width := w; height := h; getpixel := fun _ _ => black |}.

(** [img.crop((left, upper, right, lower))]; pixels of the box that lie
    outside the source are black. *)
Definition crop (img : Image) (left upper right lower : Z) : Image :=
  {| width := right - left;
     height := lower - upper;
     getpixel := fun x y =>
       let sx := x + left in
       let sy := y + upper in
       if (0 <=? sx) && (sx <? width img) && (0 <=? sy) && (sy <? height img)
       then getpixel img sx sy else black |}.

(** [canvas.paste(region, (x0, y0))]: the canvas keeps its size; the
    pixels under the region are replaced (what sticks out is dropped
    with the canvas bounds). *)
Definition paste (canvas region : Image) (x0 y0 : Z) : Image :=
  {| width := width canvas;
     height := height canvas;
     getpixel := fun x y =>
       if (x0 <=? x) && (x <? x0 + width region)
          && (y0 <=? y) && (y <? y0 + height region)
       then getpixel region (x - x0) (y - y0)
       else getpixel canvas x y |}.

(** ** The browser session and the other collaborators *)

Definition png : Type := list Byte.byte.

(** The JavaScript snippets passed to [driver.execute_script]. *)
Inductive script : Type :=
| js_innerWidth        (* return window.innerWidth *)
| js_innerHeight       (* return window.innerHeight *)
| js_documentHeight    (* return Math.max(body.scrollHeight, documentElement.scrollHeight) *)
| js_scrollTo (y : Z)  (* window.scrollTo(0, y); *)
| js_pageYOffset.      (* return window.pageYOffset *)

(** What [capture_full_page_screenshot] calls on [self.driver], [time],
    [PIL.Image] and [os].  Every call may raise, except [time.sleep];
    [execute_script] returns a number (ignored for [js_scrollTo]). *)
Record Driver (W : Type) : Type := {
  get : string -> M W unit;
  execute_script : script -> M W Z;
  set_window_size : Z -> Z -> M W unit;
  get_full_page_screenshot_as_png : M W png;
  get_screenshot_as_png : M W png;
  sleep : Z -> W -> W;
  Image_open : png -> exn + Image;
  (* os.makedirs(os.path.dirname(path), exist_ok=True); image.save(path) *)
  makedirs_and_save : string -> Image -> M W unit
}.

Arguments get {W} _ _ _.
Arguments execute_script {W} _ _ _.
Arguments set_window_size {W} _ _ _ _.
Arguments get_full_page_screenshot_as_png {W} _ _.
Arguments get_screenshot_as_png {W} _ _.
Arguments sleep {W} _ _ _.
Arguments Image_open {W} _ _.
Arguments makedirs_and_save {W} _ _ _ _.

(** ** [WebCapture.capture_full_page_screenshot] *)

Section Capture.
Context {W : Type} (drv : Driver W).
Local Open Scope py_scope.

(** [if output_path: os.makedirs(...); image.save(output_path)] *)
Definition save_if_requested (output_path : option string) (image : Image)
    : M W unit :=
  match output_path with
  | Some path =>
      if truthy_str output_path then makedirs_and_save drv path image
      else ret tt
  | None => ret tt
  end.

(** The body of the inner [try] (method 1, lines 129-145): resize the
    window to the whole document, wait, take the native full-page
    screenshot, decode it, save it when asked, and return it. *)
Definition native_capture (viewport_width total_height : Z)
    (output_path : option string) : M W Image :=
  set_window_size drv viewport_width total_height ;;
  effect (sleep drv 1) ;;
  full_screenshot <- get_full_page_screenshot_as_png drv ;;
  full_image <- lift (Image_open drv full_screenshot) ;;
  save_if_requested output_path full_image ;;
  ret full_image.

(** Lines 160-161:
    [if max_scroll and scroll_steps > max_scroll: scroll_steps = max_scroll] *)
Definition limit_scroll_steps (scroll_steps : Z) (max_scroll : option Z)
    : Z :=
  match max_scroll with
  | Some m =>
      if truthy_int max_scroll && (scroll_steps >? m) then m
      else scroll_steps
  | None => scroll_steps
  end.

(** The variables the scroll loop updates. *)
Record loop_vars : Type := {
  screenshots : list Image;
  last_height : Z
}.

(** How one iteration of a [for] loop ends. *)
Inductive flow : Type :=
| Next (vars : loop_vars)     (* falls off the end of the body *)
| Break (vars : loop_vars).   (* [break] *)

(** The first three statements of the loop body: scroll to the
    requested position, wait, read back the achieved position. *)
Definition scroll_and_measure (scroll_to : Z) : M W Z :=
  execute_script drv (js_scrollTo scroll_to) ;;
  effect (sleep drv 1) ;;
  execute_script drv js_pageYOffset.

(** The body of [for i in range(scroll_steps)] (lines 170-188). *)
Definition loop_body (viewport_height i : Z) (vars : loop_vars)
    : M W flow :=
  let scroll_to := i * viewport_height in
  current_height <- scroll_and_measure scroll_to ;;
  if (current_height =? last_height vars) && (i >? 0) then
    ret (Break vars)
  else
    screenshot <- get_screenshot_as_png drv ;;
    img <- lift (Image_open drv screenshot) ;;
    ret (Next {| screenshots := screenshots vars ++ [img];
                 last_height := current_height |}).

Fixpoint for_loop (viewport_height : Z) (indices : list Z)
    (vars : loop_vars) : M W loop_vars :=
  match indices with
  | [] => ret vars
  | i :: rest =>
      r <- loop_body viewport_height i vars ;;
      match r with
      | Next vars' => for_loop viewport_height rest vars'
      | Break vars' => ret vars'
      end
  end.

(** [screenshots = []; last_height = 0; for i in range(scroll_steps): ...] *)
Definition capture_sections (viewport_height scroll_steps : Z)
    : M W (list Image) :=
  vars <- for_loop viewport_height (range scroll_steps)
            {| screenshots := []; last_height := 0 |} ;;
  ret (screenshots vars).

(** [for i, img in enumerate(screenshots)] (lines 200-206), from
    index [i] on. *)
Fixpoint paste_sections (viewport_height final_height i : Z)
    (sections : list Image) (combined_image : Image) : Image :=
  match sections with
  | [] => combined_image
  | img :: rest =>
      let y_offset := i * viewport_height in
      let combined_image' :=
        if y_offset <? final_height then
          let paste_height := Z.min (height img) (final_height - y_offset) in
          let region := crop img 0 0 (width img) paste_height in
          paste combined_image region 0 y_offset
        else combined_image in
      paste_sections viewport_height final_height (i + 1) rest combined_image'
  end.

(** Lines 191-217:
    [if screenshots: ... return combined_image  else: return None] *)
Definition stitch (total_height viewport_height : Z)
    (sections : list Image) (output_path : option string)
    : M W (option Image) :=
  match sections with
  | first :: _ =>
      let final_width := width first in
      let final_height :=
        Z.min total_height (viewport_height * Z.of_nat (length sections)) in
      combined_image <- lift (Image_new final_width final_height) ;;
      let combined_image :=
        paste_sections viewport_height final_height 0 sections combined_image in
      save_if_requested output_path combined_image ;;
      ret (Some combined_image)
  | [] => ret None
  end.

(** The handler of the inner [try] (method 2, lines 147-217): restore
    the window, compute [scroll_steps = (total_height // viewport_height)
    + 1] and limit it, scroll and capture by sections, then combine. *)
Definition scroll_and_stitch (viewport_width viewport_height total_height : Z)
    (output_path : option string) (max_scroll : option Z)
    : M W (option Image) :=
  set_window_size drv viewport_width viewport_height ;;
  effect (sleep drv 1) ;;
  quotient <- floordiv total_height viewport_height ;;
  let scroll_steps := quotient + 1 in
  let scroll_steps := limit_scroll_steps scroll_steps max_scroll in
  sections <- capture_sections viewport_height scroll_steps ;;
  stitch total_height viewport_height sections output_path.

(** The first statements of the outer [try] (lines 116-124): load the
    page, let it settle, read the window and document sizes. *)
Definition load_and_measure (url : string) : M W (Z * Z * Z) :=
  get drv url ;;
  effect (sleep drv 3) ;;
  viewport_width <- execute_script drv js_innerWidth ;;
  viewport_height <- execute_script drv js_innerHeight ;;
  total_height <- execute_script drv js_documentHeight ;;
  ret (viewport_width, viewport_height, total_height).

(** The inner [try ... except (AttributeError, WebDriverException)]. *)
Definition native_or_scroll (viewport_width viewport_height total_height : Z)
    (output_path : option string) (max_scroll : option Z)
    : M W (option Image) :=
  try_except
    (full_image <- native_capture viewport_width total_height output_path ;;
     ret (Some full_image))
    native_handler_catches
    (fun _ => scroll_and_stitch viewport_width viewport_height total_height
                output_path max_scroll).

(** The body of the outer [try]. *)
Definition capture_body (url : string) (output_path : option string)
    (max_scroll : option Z) : M W (option Image) :=
  dims <- load_and_measure url ;;
  let '(viewport_width, viewport_height, total_height) := dims in
  native_or_scroll viewport_width viewport_height total_height
    output_path max_scroll.

(** The whole method: [except TimeoutException] and [except Exception]
    (lines 219-224) both log and [return None], so nothing is raised to
    the caller. *)
Definition capture_full_page_screenshot (url : string)
    (output_path : option string) (max_scroll : option Z)
    : W -> option Image * W :=
  fun w =>
    match capture_body url output_path max_scroll w with
    | (inr result, w') => (result, w')
    | (inl _, w') => (None, w')
    end.

End Capture.

(** The number of iterations the scroll loop is set up for, as a function
    of the measured heights and the cap (for a non-zero viewport height,
    where [//] does not raise). *)
Definition planned_scroll_steps (total_height viewport_height : Z)
    (max_scroll : option Z) : Z :=
  limit_scroll_steps (total_height / viewport_height + 1) max_scroll.

(** ** A scripted browser

    A small deterministic stand-in for the Selenium session, used to run
    the method on concrete pages.  The page is [doc_h] pixels tall and
    shown in a window of [inner_w] by [inner_h]; with [clamps] the
    scroll position stops at the bottom of the document as a browser
    does, without it the position simply follows the request (a page
    that keeps growing under the scroll).  [native] tells whether the
    driver offers [get_full_page_screenshot_as_png] (Chrome does not:
    the attribute is missing). *)
Module Mock.

Record world : Type := {
  inner_w : Z;
  inner_h : Z;
  doc_h : Z;
  scroll_y : Z;
  clamps : bool;
  native : bool;
  saved : list string
}.

Definition scrolled (y : Z) (w : world) : world :=
  {| inner_w := inner_w w; inner_h := inner_h w; doc_h := doc_h w;
     scroll_y := if clamps w
                 then Z.max 0 (Z.min y (doc_h w - inner_h w))
                 else y;
     clamps := clamps w; native := native w; saved := saved w |}.

Definition resized (width height : Z) (w : world) : world :=
  {| inner_w := width; inner_h := height; doc_h := doc_h w;
     scroll_y := scroll_y w;
     clamps := clamps w; native := native w; saved := saved w |}.

Definition with_saved (path : string) (w : world) : world :=
  {| inner_w := inner_w w; inner_h := inner_h w; doc_h := doc_h w;
     scroll_y := scroll_y w;
     clamps := clamps w; native := native w; saved := path :: saved w |}.

Definition byte_of_Z (z : Z) : Byte.byte :=
  match Byte.of_N (Z.to_N (z mod 256)) with
  | Some b => b
  | None => Byte.x00
  end.

Definition Z_of_byte (b : Byte.byte) : Z := Z.of_N (Byte.to_N b).

(** The "PNG" of a screenshot: its width, its height and the scroll
    position it was taken at, two bytes each. *)
Definition encode (width height top : Z) : png :=
  [ byte_of_Z (width / 256); byte_of_Z width;
    byte_of_Z (height / 256); byte_of_Z height;
    byte_of_Z (top / 256); byte_of_Z top ].

(** The colour of the page at an absolute position. *)
Definition page_color (x y : Z) : color := (x mod 256, y mod 256, y / 256).

Definition decode (data : png) : exn + Image :=
  match data with
  | [w1; w0; h1; h0; t1; t0] =>
      let top := 256 * Z_of_byte t1 + Z_of_byte t0 in
      inr {| width := 256 * Z_of_byte w1 + Z_of_byte w0;
             height := 256 * Z_of_byte h1 + Z_of_byte h0;
             getpixel := fun x y => page_color x (y + top) |}
  | _ => inl OSError
  end.

Definition driver : Driver world :=
  {| get := fun _ => ret tt;
     execute_script := fun s w =>
       match s with
       | js_innerWidth => (inr (inner_w w), w)
       | js_innerHeight => (inr (inner_h w), w)
       | js_documentHeight => (inr (doc_h w), w)
       | js_scrollTo y => (inr 0, scrolled y w)
       | js_pageYOffset => (inr (scroll_y w), w)
       end;
     set_window_size := fun width height w =>
       (inr tt, resized width height w);
     get_full_page_screenshot_as_png := fun w =>
       if native w then (inr (encode (inner_w w) (doc_h w) 0), w)
       else (inl AttributeError, w);
     get_screenshot_as_png := fun w =>
       (inr (encode (inner_w w) (inner_h w) (scroll_y w)), w);
     sleep := fun _ w => w;
     Image_open := decode;
     makedirs_and_save := fun path _ w => (inr tt, with_saved path w) |}.

(** The worlds in which a page of [total_height] is shown in a window
    [view_height] tall and the scroll position stops at the bottom. *)
Definition settled (total_height view_height : Z) (w : world) : Prop :=
  doc_h w = total_height /\ inner_h w = view_height /\ clamps w = true.

(** The worlds in which the window is [view_height] tall and the
    position follows every request. *)
Definition following (view_height : Z) (w : world) : Prop :=
  inner_h w = view_height /\ clamps w = false.

(** A freshly loaded page. *)
Definition page (width view_height total_height : Z) (clamping : bool)
    (has_native : bool) : world :=
  {| inner_w := width; inner_h := view_height; doc_h := total_height;
     scroll_y := 0; clamps := clamping; native := has_native; saved := [] |}.

(** What the method returns for a page, without an output path. *)
Definition run (w : world) (max_scroll : option Z) : option Image :=
  fst (capture_full_page_screenshot driver "http://example.com" None
         max_scroll w).

End Mock.

(** ** [DOMExtractor.match_image_with_dom] *)

(** The values stored in the dictionaries built by [extract_images_info]:
    booleans ([has_alt], [empty_alt], [is_background]) and strings. *)
Inductive pyval : Type :=
| PyBool (b : bool)
| PyStr (s : string).

(** Python truth value. *)
Definition truthy (v : pyval) : bool :=
  match v with
  | PyBool b => b
  | PyStr EmptyString => false
  | PyStr _ => true
  end.

(** [d.get(key, fallback)] *)
Definition dict_get (d : gmap string pyval) (key : string) (fallback : pyval)
    : pyval :=
  default fallback (d !! key).

(** [not img.get('has_alt', False) or img.get('empty_alt', False)] *)
Definition without_alt (img : gmap string pyval) : bool :=
  negb (truthy (dict_get img "has_alt" (PyBool false)))
  || truthy (dict_get img "empty_alt" (PyBool false)).

(** [for img in dom_images: if ...: return img] and [return None] after
    the loop; the region and the viewport size are accepted and unused. *)
Fixpoint match_image_with_dom (image_region : Z * Z * Z * Z)
    (dom_images : list (gmap string pyval))
    (viewport_width viewport_height : Z) : option (gmap string pyval) :=
  match dom_images with
  | [] => None
  | img :: rest =>
      if without_alt img then Some img
      else match_image_with_dom image_region rest viewport_width viewport_height
  end.

(** Three dictionaries as [extract_images_info] builds them: an image
    with a description, one with [alt=""], and a background image. *)
Definition described_image : gmap string pyval :=
  {[ "element" := PyStr "img"; "src" := PyStr "logo.png";
     "alt" := PyStr "Company logo";
     "has_alt" := PyBool true; "empty_alt" := PyBool false ]}.

Definition blank_alt_image : gmap string pyval :=
  {[ "element" := PyStr "img"; "src" := PyStr "chart.png";
     "alt" := PyStr "";
     "has_alt" := PyBool true; "empty_alt" := PyBool true ]}.

Definition background_image : gmap string pyval :=
  {[ "element" := PyStr "div"; "src" := PyStr "hero.jpg";
     "alt" := PyStr "";
     "has_alt" := PyBool false; "empty_alt" := PyBool false;
     "is_background" := PyBool true ]}.

(** ** [ColorBlindSimulator.simulate_colorblindness] *)

(** The four transformation matrices, entries in thousandths. *)
Definition protanopia_matrix : list (list Z) :=
  [[567; 433; 0]; [558; 442; 0]; [0; 242; 758]].
Definition deuteranopia_matrix : list (list Z) :=
  [[625; 375; 0]; [700; 300; 0]; [0; 300; 700]].
Definition tritanopia_matrix : list (list Z) :=
  [[950; 50; 0]; [0; 433; 567]; [0; 475; 525]].
Definition achromatopsia_matrix : list (list Z) :=
  [[299; 587; 114]; [299; 587; 114]; [299; 587; 114]].

Section ColorBlind.
(** Everything after the selection of the matrix (conversion to RGB,
    reshape, [torch.matmul] in float32, clamp to 0..255, cast to
    uint8) is floating-point tensor code and is kept as a parameter. *)
Variable apply_matrix : list (list Z) -> Image -> Image.

Definition simulate_colorblindness (image : Image) (colorblind_type : string)
    : Image :=
  if String.eqb colorblind_type "protanopia" then
    apply_matrix protanopia_matrix image
  else if String.eqb colorblind_type "deuteranopia" then
    apply_matrix deuteranopia_matrix image
  else if String.eqb colorblind_type "tritanopia" then
    apply_matrix tritanopia_matrix image
  else if String.eqb colorblind_type "achromatopsia" then
    apply_matrix achromatopsia_matrix image
  else
    image.
End ColorBlind.

(** An exact-arithmetic stand-in for the tensor code, for concrete runs:
    each pixel is multiplied by the matrix, divided by 1000 rounding
    down, and clamped to 0..255. *)
Definition clamp255 (v : Z) : Z := Z.max 0 (Z.min 255 v).

Definition row_times (row : list Z) (c : color) : Z :=
  match row, c with
  | [a; b; d], (r, g, bl) => clamp255 ((a * r + b * g + d * bl) / 1000)
  | _, _ => 0
  end.

Definition exact_apply_matrix (m : list (list Z)) (image : Image) : Image :=
  match m with
  | [r0; r1; r2] =>
      {| width := width image; height := height image;
         getpixel := fun x y =>
           let c := getpixel image x y in
           (row_times r0 c, row_times r1 c, row_times r2 c) |}
  | _ => image
  end.

(** ** Vocabulary of the properties *)

(** The ceiling of [a / b] for a positive [b]. *)
Definition ceil_div (a b : Z) : Z := - ((- a) / b).

Section Runs.
Context {W : Type} (drv : Driver W).

(** [at_iteration vh w0 i vars w]: started in world [w0], the scroll
    loop arrives at the top of iteration [i] with variables [vars] in
    world [w], every earlier iteration having captured its section. *)
Inductive at_iteration (viewport_height : Z) (w0 : W)
    : nat -> loop_vars -> W -> Prop :=
| at_first :
    at_iteration viewport_height w0 0%nat
      {| screenshots := []; last_height := 0 |} w0
| at_next i vars w vars' w' :
    at_iteration viewport_height w0 i vars w ->
    loop_body drv viewport_height (Z.of_nat i) vars w = (inr (Next vars'), w') ->
    at_iteration viewport_height w0 (S i) vars' w'.

(** A session that answers on every world satisfying [good]: after a
    scroll request to [y] the position read back is [achieved y], and
    a screenshot is delivered and decodes to an image. *)
Record responsive (good : W -> Prop) (achieved : Z -> Z) : Prop := {
  measure_answers : forall y w, good w ->
    exists w', scroll_and_measure drv y w = (inr (achieved y), w') /\ good w';
  screenshot_answers : forall w, good w ->
    exists data img w',
      get_screenshot_as_png drv w = (inr data, w')
      /\ Image_open drv data = inr img
      /\ 0 <= width img /\ good w'
}.

(** The sections were combined completely: the image is the canvas of
    the computed size with every section pasted. *)
Definition composite_of (total_height viewport_height : Z)
    (sections : list Image) (img : Image) : Prop :=
  exists first rest canvas,
    sections = first :: rest
    /\ Image_new (width first)
         (Z.min total_height (viewport_height * Z.of_nat (length sections)))
       = inr canvas
    /\ img = paste_sections viewport_height (height canvas) 0 sections canvas.
End Runs.

(** How many sections the loop captures when the position read back
    after a request to [y] is [achieved y]: it goes on from iteration
    [i], with [remaining] iterations left, until a position repeats. *)
Fixpoint captured_from (achieved : Z -> Z) (viewport_height : Z)
    (i remaining : nat) : nat :=
  match remaining with
  | O => i
  | S remaining' =>
      if (0 <? Z.of_nat i)
         && (achieved (Z.of_nat i * viewport_height)
             =? achieved ((Z.of_nat i - 1) * viewport_height))
      then i
      else captured_from achieved viewport_height (S i) remaining'
  end.

Definition captured_count (achieved : Z -> Z) (viewport_height steps : Z)
    : nat :=
  captured_from achieved viewport_height 0 (Z.to_nat steps).

(** Width and height of what the method returned. *)
Definition size_of (result : option Image) : option (Z * Z) :=
  match result with
  | Some img => Some (width img, height img)
  | None => None
  end.

(** What the caller sees of a path run inside the outer [try]: its
    result, or [None] when it raised. *)
Definition seen_by_caller {W} (r : (exn + option Image) * W)
    : option Image * W :=
  match r with
  | (inr result, w') => (result, w')
  | (inl _, w') => (None, w')
  end.

(** The position a browser reaches on a page of [total_height] shown in
    a window of [viewport_height]: the request, kept between the top and
    the last full window. *)
Definition stop_at_bottom (total_height viewport_height y : Z) : Z :=
  Z.max 0 (Z.min y (total_height - viewport_height)).

(** ** [WebCapture.capture_screenshot] and the choice of capture in [main] *)

Section Fallback.
Context {W : Type} (drv : Driver W).
Local Open Scope py_scope.

(** The body of the [try] of [capture_screenshot] (lines 70-93): load
    the page, wait, read the window size, set the window to it, take
    one screenshot, decode it, save it when asked. *)
Definition capture_screenshot_body (url : string)
    (output_path : option string) : M W Image :=
  get drv url ;;
  effect (sleep drv 3) ;;
  width <- execute_script drv js_innerWidth ;;
  height <- execute_script drv js_innerHeight ;;
  set_window_size drv width height ;;
  screenshot <- get_screenshot_as_png drv ;;
  image <- lift (Image_open drv screenshot) ;;
  save_if_requested drv output_path image ;;
  ret image.

(** [except Exception] (lines 95-97): log and [return None]. *)
Definition capture_screenshot (url : string) (output_path : option string)
    : W -> option Image * W :=
  fun w =>
    match capture_screenshot_body url output_path w with
    | (inr image, w') => (Some image, w')
    | (inl _, w') => (None, w')
    end.

(** [index.py], [main], lines 859-870: with full-page analysis the
    full-page capture comes first and the standard capture is the
    fallback when it returned [None]; without it only the standard
    capture runs.  [max_scroll] is the value of the slider. *)
Definition capture_page (full_page_analysis : bool) (url : string)
    (max_scroll : Z) : W -> option Image * W :=
  fun w =>
    if full_page_analysis then
      match capture_full_page_screenshot drv url None (Some max_scroll) w with
      | (Some screenshot, w') => (Some screenshot, w')
      | (None, w') => capture_screenshot url None w'
      end
    else capture_screenshot url None w.

End Fallback.

(** ** Sessions used to exercise failures *)

Module Faulty.

(** The scripted browser with a native capture that delivers bytes
    which are no image. *)
Definition corrupt_native : Driver Mock.world :=
  {| get := get Mock.driver;
     execute_script := execute_script Mock.driver;
     set_window_size := set_window_size Mock.driver;
     get_full_page_screenshot_as_png := fun w => (inr [], w);
     get_screenshot_as_png := get_screenshot_as_png Mock.driver;
     sleep := sleep Mock.driver;
     Image_open := Image_open Mock.driver;
     makedirs_and_save := makedirs_and_save Mock.driver |}.

(** The scripted browser whose screenshots fail once the page is
    scrolled to [limit] or further. *)
Definition lost_at (limit : Z) : Driver Mock.world :=
  {| get := get Mock.driver;
     execute_script := execute_script Mock.driver;
     set_window_size := set_window_size Mock.driver;
     get_full_page_screenshot_as_png :=
       get_full_page_screenshot_as_png Mock.driver;
     get_screenshot_as_png := fun w =>
       if limit <=? Mock.scroll_y w then (inl WebDriverException, w)
       else get_screenshot_as_png Mock.driver w;
     sleep := sleep Mock.driver;
     Image_open := Image_open Mock.driver;
     makedirs_and_save := makedirs_and_save Mock.driver |}.

(** The scripted browser on a disk that cannot be written. *)
Definition read_only : Driver Mock.world :=
  {| get := get Mock.driver;
     execute_script := execute_script Mock.driver;
     set_window_size := set_window_size Mock.driver;
     get_full_page_screenshot_as_png :=
       get_full_page_screenshot_as_png Mock.driver;
     get_screenshot_as_png := get_screenshot_as_png Mock.driver;
     sleep := sleep Mock.driver;
     Image_open := Image_open Mock.driver;
     makedirs_and_save := fun _ _ w => (inl OSError, w) |}.

End Faulty.

(** ** What the sections show *)

(** [shows page vw vh top img]: the image is a window of [vw] by [vh]
    pixels on the page, with its first row on row [top] of the page. *)
Definition shows (page : Z -> Z -> color) (view_w view_h top : Z)
    (img : Image) : Prop :=
  width img = view_w /\ height img = view_h
  /\ forall x y, 0 <= x < view_w -> 0 <= y < view_h ->
       getpixel img x y = page x (top + y).

Section Windows.
Context {W : Type} (drv : Driver W).

(** A session that shows a fixed page: in a world at position [o]
    ([at_pos w o]) a scroll request to [y] leads to position
    [achieved y], and a screenshot shows the window at the current
    position. *)
Record window_on_page (at_pos : W -> Z -> Prop) (achieved : Z -> Z)
    (page : Z -> Z -> color) (view_w view_h : Z) : Prop := {
  window_moves : forall y w o, at_pos w o ->
    exists w',
      scroll_and_measure drv y w = (inr (achieved y), w')
      /\ at_pos w' (achieved y);
  window_shown : forall w o, at_pos w o ->
    exists data img w',
      get_screenshot_as_png drv w = (inr data, w')
      /\ Image_open drv data = inr img
      /\ shows page view_w view_h o img
      /\ at_pos w' o
}.
End Windows.

(** The worlds of the scripted browser that show a page of
    [total_height] in a window of [view_w] by [view_h] at position [o]
    (all sizes within the two bytes of the screenshot header). *)
Definition mock_at (total_height view_w view_h : Z) (w : Mock.world)
    (o : Z) : Prop :=
  Mock.settled total_height view_h w
  /\ Mock.inner_w w = view_w /\ Mock.scroll_y w = o
  /\ 0 <= view_w < 65536 /\ 0 <= view_h < 65536
  /\ 0 <= total_height < 65536 /\ 0 <= o < 65536.

(** A session on which the plain viewport capture cannot fail: the
    page loads, the window size can be read and set, and a screenshot
    is delivered and decodes. *)
Record viewport_capture_works {W} (drv : Driver W) : Prop := {
  page_loads : forall url w, exists w', get drv url w = (inr tt, w');
  width_read : forall w, exists v w',
    execute_script drv js_innerWidth w = (inr v, w');
  height_read : forall w, exists v w',
    execute_script drv js_innerHeight w = (inr v, w');
  window_set : forall a b w, exists w',
    set_window_size drv a b w = (inr tt, w');
  viewport_shot : forall w, exists data img w',
    get_screenshot_as_png drv w = (inr data, w')
    /\ Image_open drv data = inr img
}.

(** ** [DOMExtractor.extract_images_info] and [extract_interactive_elements] *)

(** What the extractor reads of a BeautifulSoup tag: its name, its
    attributes, [get_text(strip=True)], and for an image the stripped
    text of the [figcaption] of the enclosing [figure] when both exist
    ([find_parent('figure')] and its [find('figcaption')]). *)
Record Tag : Type := {
  tag_name : string;
  tag_attrs : gmap string string;
  tag_text : string;
  tag_figcaption : option string
}.

(** The answers of the parsed document to the four [find_all] calls,
    each in document order. *)
Record Soup : Type := {
  find_all_img : list Tag;         (* find_all('img') *)
  find_all_containers : list Tag;  (* find_all(['div', 'span', 'section', 'header', 'footer']) *)
  find_all_a : list Tag;           (* find_all('a') *)
  find_all_controls : list Tag     (* find_all(['button', 'input']) *)
}.

(** [tag.get(key, '')] *)
Definition tag_get (tag : Tag) (key : string) : string :=
  default EmptyString (tag_attrs tag !! key).

(** [key in tag.attrs] *)
Definition tag_has (tag : Tag) (key : string) : bool :=
  match tag_attrs tag !! key with
  | Some _ => true
  | None => false
  end.

(** [needle in s] *)
Fixpoint contains (needle s : string) : bool :=
  if String.prefix needle s then true
  else match s with
       | EmptyString => false
       | String _ rest => contains needle rest
       end.

(** [value in ['button', 'submit', 'reset', 'image']] *)
Definition is_button_type (value : string) : bool :=
  String.eqb value "button" || String.eqb value "submit"
  || String.eqb value "reset" || String.eqb value "image".

Section Extractor.
(** [BeautifulSoup(html_content, 'html.parser')], which may raise. *)
Variable BeautifulSoup : string -> exn + Soup.
(** [not s.strip()] *)
Variable blank : string -> bool.
(** Group 1 of [re.search(r'width:\s*(\d+)', style)], of the same with
    [height], and of the search for [background-image:], optional
    white space and [url(...)] with optional quotes (line 83). *)
Variable width_in_style : string -> option string.
Variable height_in_style : string -> option string.
Variable url_in_style : string -> option string.

(** [if m and not image_info[key]: image_info[key] = m.group(1)] *)
Definition fill_from_style (key : string) (m : option string)
    (current : string) (image_info : gmap string pyval)
    : gmap string pyval :=
  match m with
  | Some digits =>
      if String.eqb current EmptyString
      then <[key := PyStr digits]> image_info
      else image_info
  | None => image_info
  end.

(** The body of [for img in soup.find_all('img')] (lines 42-75). *)
Definition image_info (img : Tag) : gmap string pyval :=
  let image_info : gmap string pyval :=
    {[ "element" := PyStr "img";
       "src" := PyStr (tag_get img "src");
       "alt" := PyStr (tag_get img "alt");
       "has_alt" := PyBool (tag_has img "alt");
       "empty_alt" := PyBool (tag_has img "alt" && blank (tag_get img "alt"));
       "width" := PyStr (tag_get img "width");
       "height" := PyStr (tag_get img "height") ]} in
  let style := tag_get img "style" in
  let image_info :=
    if String.eqb style EmptyString then image_info
    else
      fill_from_style "height" (height_in_style style) (tag_get img "height")
        (fill_from_style "width" (width_in_style style) (tag_get img "width")
           image_info) in
  let image_info :=
    <["aria_label" := PyStr (tag_get img "aria-label")]> image_info in
  <["figcaption" := PyStr (default EmptyString (tag_figcaption img))]>
    image_info.

(** The body of the loop over the containers (lines 80-95): an entry
    for an element whose style names a background image with a URL. *)
Definition background_info (element : Tag) : option (gmap string pyval) :=
  let style := tag_get element "style" in
  if contains "background-image" style then
    match url_in_style style with
    | Some url =>
        Some {[ "element" := PyStr (tag_name element);
                "src" := PyStr url;
                "alt" := PyStr "";
                "has_alt" := PyBool false;
                "empty_alt" := PyBool false;
                "is_background" := PyBool true;
                "aria_label" := PyStr (tag_get element "aria-label");
                "inner_text" := PyStr (tag_text element) ]}
    | None => None
    end
  else None.

(** [all_images = images + background_images]; [[]] when parsing raised. *)
Definition extract_images_info (html_content : string)
    : list (gmap string pyval) :=
  match BeautifulSoup html_content with
  | inr soup =>
      map image_info (find_all_img soup)
      ++ omap background_info (find_all_containers soup)
  | inl _ => []
  end.

(** The body of [for link in soup.find_all('a')] (lines 149-159). *)
Definition link_info (link : Tag) : gmap string pyval :=
  {[ "element" := PyStr "a";
     "text" := PyStr (tag_text link);
     "href" := PyStr (tag_get link "href");
     "has_aria_label" := PyBool (tag_has link "aria-label");
     "aria_label" := PyStr (tag_get link "aria-label");
     "title" := PyStr (tag_get link "title");
     "role" := PyStr (tag_get link "role") ]}.

(** The body of [for button in soup.find_all(['button', 'input'])]
    (lines 162-175); an [input] whose [type] is absent or not one of
    the four button types is passed over. *)
Definition control_info (button : Tag) : option (gmap string pyval) :=
  if String.eqb (tag_name button) "input"
     && negb (match tag_attrs button !! "type" with
              | Some value => is_button_type value
              | None => false
              end)
  then None
  else
    Some {[ "element" := PyStr (tag_name button);
            "text" := PyStr (if String.eqb (tag_name button) "button"
                             then tag_text button else EmptyString);
            "type" := PyStr (tag_get button "type");
            "has_aria_label" := PyBool (tag_has button "aria-label");
            "aria_label" := PyStr (tag_get button "aria-label");
            "title" := PyStr (tag_get button "title");
            "value" := PyStr (tag_get button "value") ]}.

Definition extract_interactive_elements (html_content : string)
    : list (gmap string pyval) :=
  match BeautifulSoup html_content with
  | inr soup =>
      map link_info (find_all_a soup)
      ++ omap control_info (find_all_controls soup)
  | inl _ => []
  end.

(** The first image of the document, in document order, that has no
    [alt] attribute or a blank one. *)
Definition first_undescribed (soup : Soup) : option Tag :=
  List.find (fun img => negb (tag_has img "alt") || blank (tag_get img "alt"))
    (find_all_img soup).
End Extractor.

(** A small document and stand-ins for the parser and the regular
    expressions, for concrete runs: a described logo, a decorative
    image with [alt=" "], a hero [div] with a background image, a
    link, a button, a submit input and a text input. *)
Module SamplePage.

Definition tag (name : string) (attrs : list (string * string))
    (text : string) : Tag :=
  {| tag_name := name; tag_attrs := list_to_map attrs; tag_text := text;
     tag_figcaption := None |}.

Definition soup : Soup :=
  {| find_all_img :=
       [ tag "img" [("src", "logo.png"); ("alt", "Company logo")] "";
         tag "img" [("src", "line.png"); ("alt", " "); ("width", "40")] "" ];
     find_all_containers :=
       [ tag "div" [("style", "background-image: url(hero.jpg)")] "Welcome" ];
     find_all_a := [ tag "a" [("href", "/about")] "About us" ];
     find_all_controls :=
       [ tag "button" [] "Send";
         tag "input" [("type", "submit"); ("value", "Go")] "";
         tag "input" [("type", "text")] "";
         tag "input" [] "" ] |}.

Definition parse (html_content : string) : exn + Soup := inr soup.

(** Blank for strings of spaces. *)
Fixpoint blank (s : string) : bool :=
  match s with
  | EmptyString => true
  | String c rest => Ascii.eqb c (Ascii.ascii_of_nat 32) && blank rest
  end.

Definition no_size (style : string) : option string := None.

Definition url (style : string) : option string :=
  if String.eqb style "background-image: url(hero.jpg)"
  then Some "hero.jpg" else None.

End SamplePage.

(** The three fields about the alternative text agree with one
    another: [empty_alt] only with [has_alt] and a blank text, and no
    text without [has_alt]. *)
Definition alt_fields_agree (blank : string -> bool)
    (d : gmap string pyval) : Prop :=
  exists h e a,
    d !! "has_alt" = Some (PyBool h)
    /\ d !! "empty_alt" = Some (PyBool e)
    /\ d !! "alt" = Some (PyStr a)
    /\ (e = true -> h = true /\ blank a = true)
    /\ (h = false -> a = EmptyString).

(** ** [TextDetectorDL] and the text issues of [main] *)

(** [if d:] for a dictionary: false when it is empty. *)
Definition dict_truthy (d : gmap string pyval) : bool :=
  negb (Nat.eqb (size d) 0).

(** [min(...)] and [max(...)] of a sequence: the first item is kept
    until a later one is smaller ([item < kept]) or greater
    ([item > kept], which for numbers is [kept < item]); an empty
    sequence raises [ValueError]. *)
Definition py_min {A : Type} (less : A -> A -> bool) (values : list A)
    : exn + A :=
  match values with
  | [] => inl ValueError
  | first :: rest =>
      inr (fold_left (fun kept item => if less item kept then item else kept)
             rest first)
  end.

Definition py_max {A : Type} (less : A -> A -> bool) (values : list A)
    : exn + A :=
  match values with
  | [] => inl ValueError
  | first :: rest =>
      inr (fold_left (fun kept item => if less kept item then item else kept)
             rest first)
  end.

Section TextIssues.
(** Python floats and what is done with them: the constants [0.0] and
    [1.0], the comparisons [s < 0.3], [s < 0.6] and [c > 0.2], and the
    cosine similarity of the DistilBERT embeddings of two texts
    (lines 192-199), which does not raise. *)
Variable F : Type.
Variables (zero one : F).
Variables (below_03 below_06 above_02 : F -> bool).
Variable similarity : string -> string -> F.
(** [not s.strip()] *)
Variable blank : string -> bool.
(** The coordinates that the reader gives, integers for upright boxes
    and floats for slanted ones, and what is done with them: [a < b]
    (behind [min] and [max]), [a - b], and [int(a)], which cuts off the
    fraction and raises for a NaN or an infinity. *)
Variable number : Type.
Variable less : number -> number -> bool.
Variable minus : number -> number -> number.
Variable int : number -> exn + Z.
(** [self.reader.readtext(np.array(image))]: boxes of corner points,
    texts and confidences; may raise. *)
Variable readtext :
  Image -> exn + list (list (number * number) * string * F).

(** The coordinates are whole numbers: [val] gives the integer that a
    coordinate stands for, and the three operations are those of the
    integers. *)
Record whole_numbers (val : number -> Z) : Prop := {
  less_whole : forall a b, less a b = (val a <? val b);
  minus_whole : forall a b, val (minus a b) = val a - val b;
  int_whole : forall a, int a = inr (val a)
}.

(** The dictionary returned by [evaluate_alt_text]. *)
Record evaluation : Type := {
  ev_has_alt_text : bool;
  ev_similarity_score : F;
  ev_quality : string;
  ev_recommendation : string
}.

(** The dictionary of one detection: the four keys set by
    [detect_text_in_image] and the three that an update may add. *)
Record detection : Type := {
  det_region : Z * Z * Z * Z;
  det_detected_text : string;
  det_confidence : F;
  det_has_alt_text : pyval;
  det_alt_text : option pyval;
  det_alt_text_quality : option string;
  det_recommendation : option string
}.

Definition missing_alt : evaluation :=
  {| ev_has_alt_text := false;
     ev_similarity_score := zero;
     ev_quality := "Missing";
     ev_recommendation :=
       "Añadir texto alternativo que describa el contenido textual de la imagen" |}.

(** [evaluate_alt_text] (lines 162-217).  [alt_text] is [None], a
    string, or whatever else the caller found in a dictionary; a true
    boolean has no [strip] and raises. *)
Definition evaluate_alt_text (detected_text : string)
    (alt_text : option pyval) : exn + evaluation :=
  match alt_text with
  | None => inr missing_alt
  | Some (PyBool false) => inr missing_alt
  | Some (PyBool true) => inl AttributeError
  | Some (PyStr alt) =>
      if String.eqb alt EmptyString || blank alt then inr missing_alt
      else if String.eqb detected_text EmptyString || blank detected_text
      then
        inr {| ev_has_alt_text := true;
               ev_similarity_score := one;
               ev_quality := "Good";
               ev_recommendation := "El texto alternativo parece adecuado" |}
      else
        let similarity_score := similarity detected_text alt in
        if below_03 similarity_score then
          inr {| ev_has_alt_text := true;
                 ev_similarity_score := similarity_score;
                 ev_quality := "Poor";
                 ev_recommendation :=
                   "El texto alternativo no describe adecuadamente el contenido textual de la imagen" |}
        else if below_06 similarity_score then
          inr {| ev_has_alt_text := true;
                 ev_similarity_score := similarity_score;
                 ev_quality := "Average";
                 ev_recommendation :=
                   "El texto alternativo describe parcialmente el contenido. Considera mejorarlo" |}
        else
          inr {| ev_has_alt_text := true;
                 ev_similarity_score := similarity_score;
                 ev_quality := "Good";
                 ev_recommendation :=
                   "El texto alternativo describe adecuadamente el contenido" |}
  end.

(** The body of [for bbox, text, confidence in raw_results]
    (lines 108-125): the extremes of the box and its extents are
    computed; the detection is kept when the confidence is above 0.2
    and the text is not blank, with the region
    [(int(x_min), int(y_min), int(width), int(height))]. *)
Definition detection_of (raw : list (number * number) * string * F)
    : exn + option detection :=
  let '(bbox, text, confidence) := raw in
  match py_min less (map fst bbox), py_min less (map snd bbox),
        py_max less (map fst bbox), py_max less (map snd bbox) with
  | inr x_min, inr y_min, inr x_max, inr y_max =>
      let width := minus x_max x_min in
      let height := minus y_max y_min in
      if above_02 confidence && negb (blank text) then
        match int x_min, int y_min, int width, int height with
        | inr x, inr y, inr w, inr h =>
            inr (Some {| det_region := (x, y, w, h);
                         det_detected_text := text;
                         det_confidence := confidence;
                         det_has_alt_text := PyBool false;
                         det_alt_text := None;
                         det_alt_text_quality := None;
                         det_recommendation := None |})
        | inl e, _, _, _ => inl e
        | _, inl e, _, _ => inl e
        | _, _, inl e, _ => inl e
        | _, _, _, inl e => inl e
        end
      else inr None
  | inl e, _, _, _ => inl e
  | _, inl e, _, _ => inl e
  | _, _, inl e, _ => inl e
  | _, _, _, inl e => inl e
  end.

Fixpoint detections_of
    (raw_results : list (list (number * number) * string * F))
    : exn + list detection :=
  match raw_results with
  | [] => inr []
  | raw :: rest =>
      match detection_of raw with
      | inl e => inl e
      | inr kept =>
          match detections_of rest with
          | inl e => inl e
          | inr detections =>
              inr (match kept with
                   | Some d => d :: detections
                   | None => detections
                   end)
          end
      end
  end.

(** [detect_text_in_image] (lines 95-132): any exception gives [[]]. *)
Definition detect_text_in_image (image : Image) : list detection :=
  match readtext image with
  | inr raw_results =>
      match detections_of raw_results with
      | inr detections => detections
      | inl _ => []
      end
  | inl _ => []
  end.

(** [detection.update({...})] of [analyze_image_with_alt] and of [main]. *)
Definition with_evaluation (d : detection) (has_alt : pyval)
    (alt_text : pyval) (e : evaluation) : detection :=
  {| det_region := det_region d;
     det_detected_text := det_detected_text d;
     det_confidence := det_confidence d;
     det_has_alt_text := has_alt;
     det_alt_text := Some alt_text;
     det_alt_text_quality := Some (ev_quality e);
     det_recommendation := Some (ev_recommendation e) |}.

(** [analyze_image_with_alt] (lines 231-250). *)
Definition analyze_image_with_alt (image : Image) (alt_text : option string)
    : exn + list detection :=
  let detections := detect_text_in_image image in
  match detections, alt_text with
  | _ :: _, Some alt =>
      if truthy_str alt_text then
        let all_detected_text :=
          String.concat " " (map det_detected_text detections) in
        match evaluate_alt_text all_detected_text (Some (PyStr alt)) with
        | inr e =>
            inr (map (fun d =>
                        with_evaluation d (PyBool (ev_has_alt_text e))
                          (PyStr alt) e)
                   detections)
        | inl err => inl err
        end
      else inr detections
  | _, _ => inr detections
  end.

(** [index.py], [main], the body of [for text_issue in text_in_images]
    (lines 904-920). *)
Definition link_with_dom (dom_images : list (gmap string pyval))
    (screenshot : Image) (text_issue : detection) : exn + detection :=
  match match_image_with_dom (det_region text_issue) dom_images
          (width screenshot) (height screenshot) with
  | Some matched_dom_image =>
      if dict_truthy matched_dom_image then
        let alt_text := dict_get matched_dom_image "alt" (PyStr "") in
        match evaluate_alt_text (det_detected_text text_issue)
                (Some alt_text) with
        | inr e =>
            inr (with_evaluation text_issue
                   (dict_get matched_dom_image "has_alt" (PyBool false))
                   alt_text e)
        | inl err => inl err
        end
      else inr text_issue
  | None => inr text_issue
  end.

Fixpoint link_all (dom_images : list (gmap string pyval))
    (screenshot : Image) (text_in_images : list detection)
    : exn + list detection :=
  match text_in_images with
  | [] => inr []
  | text_issue :: rest =>
      match link_with_dom dom_images screenshot text_issue with
      | inl err => inl err
      | inr linked =>
          match link_all dom_images screenshot rest with
          | inl err => inl err
          | inr others => inr (linked :: others)
          end
      end
  end.

(** The condition of the list comprehension of lines 923-926. *)
Definition is_text_issue (t : detection) : bool :=
  negb (truthy (det_has_alt_text t))
  || negb (String.eqb (default "Missing" (det_alt_text_quality t)) "Good").

(** Lines 902-926: detect, link with the DOM, keep the issues. *)
Definition text_issues_of_main (screenshot : Image)
    (dom_images : list (gmap string pyval)) : exn + list detection :=
  match link_all dom_images screenshot (detect_text_in_image screenshot) with
  | inr text_in_images => inr (List.filter is_text_issue text_in_images)
  | inl err => inl err
  end.
End TextIssues.

(** Lines 951-962 of [main]: the score from the numbers of issues. *)
Definition accessibility_score (contrast_issues text_issues
    total_colorblind_issues : Z) : Z :=
  let max_score := 100 in
  let penalty_per_contrast := 3 in
  let penalty_per_text := 5 in
  let penalty_per_colorblind := 2 in
  Z.max 0 (max_score
           - contrast_issues * penalty_per_contrast
           - text_issues * penalty_per_text
           - total_colorblind_issues * penalty_per_colorblind).

(** Stand-ins for the floats and the OCR, for concrete runs: scores in
    hundredths, a reader that finds three texts in upright boxes, one
    of them blank, and a reader that finds one text in a slanted box
    whose corners are given in tenths of a pixel. *)
Module SampleText.

(** [int] of a whole coordinate. *)
Definition whole (z : Z) : exn + Z := inr z.

(** [int] of a coordinate in tenths: the fraction is cut off. *)
Definition tenths (t : Z) : exn + Z := inr (Z.quot t 10).

Definition below (limit s : Z) : bool := s <? limit.
Definition above (limit s : Z) : bool := limit <? s.

Definition similarity (a b : string) : Z :=
  if String.eqb a b then 100 else 45.

Definition readtext (image : Image)
    : exn + list (list (Z * Z) * string * Z) :=
  inr [ ([(10, 20); (110, 22); (108, 60); (8, 58)], "SALE 50%", 93);
        ([(200, 300); (260, 300); (260, 320); (200, 320)], "   ", 80);
        ([(5, 400); (90, 400); (90, 430); (5, 430)], "Contact", 64) ].

(** Corners (10.0, 20.0), (110.9, 22.0), (108.0, 60.9), (8.0, 58.0). *)
Definition slanted (image : Image)
    : exn + list (list (Z * Z) * string * Z) :=
  inr [ ([(100, 200); (1109, 220); (1080, 609); (80, 580)], "SALE 50%", 93) ].

End SampleText.

(** * Properties *)

(** ** Running monadic code *)

Section MonadFacts.
Context {W A B : Type}.
Implicit Types (m : M W A) (k : A -> M W B).

Lemma bind_inr m k w b w' :
  bind m k w = (inr b, w') ->
  exists a w1, m w = (inr a, w1) /\ k a w1 = (inr b, w').
Proof.
  unfold bind. destruct (m w) as [[e | a] w1]; intros H.
  - discriminate.
  - exists a, w1. split; [reflexivity | exact H].
Qed.

Lemma bind_run m k w a w1 :
  m w = (inr a, w1) -> bind m k w = k a w1.
Proof. unfold bind. intros ->. reflexivity. Qed.

Lemma bind_raise m k w e w1 :
  m w = (inl e, w1) -> bind m k w = (inl e, w1).
Proof. unfold bind. intros ->. reflexivity. Qed.
End MonadFacts.

(** Splits a successful run of a sequence into the runs of its parts. *)
Ltac run_inv H :=
  repeat match type of H with
  | bind _ _ _ = (inr _, _) =>
      let a := fresh "v" in
      let w := fresh "w" in
      let H1 := fresh "Hrun" in
      apply bind_inr in H; destruct H as (a & w & H1 & H)
  | ret _ _ = _ => unfold ret in H
  | effect _ _ = _ => unfold effect in H
  | lift _ _ = _ => unfold lift in H
  end.

(** ** The scroll loop *)

Section LoopFacts.
Context {W : Type} (drv : Driver W).
Implicit Types (vars : loop_vars) (w : W) (i : Z).

(** An iteration that goes on has measured a new position (or is the
    first) and has appended exactly one section. *)
Lemma loop_body_Next vh i vars w vars' w' :
  loop_body drv vh i vars w = (inr (Next vars'), w') ->
  exists cur w1 img,
    scroll_and_measure drv (i * vh) w = (inr cur, w1)
    /\ (cur =? last_height vars) && (i >? 0) = false
    /\ screenshots vars' = screenshots vars ++ [img]
    /\ last_height vars' = cur.
Proof.
  unfold loop_body. intros H.
  apply bind_inr in H. destruct H as (cur & w1 & Hm & H).
  destruct ((cur =? last_height vars) && (i >? 0)) eqn:E.
  - discriminate.
  - run_inv H. injection H as H _. subst vars'.
    exists cur, w1, v0. auto.
Qed.

(** An iteration that breaks has measured the recorded position
    again, is not the first, and leaves everything as it was: no
    screenshot is requested. *)
Lemma loop_body_Break vh i vars w vars' w' :
  loop_body drv vh i vars w = (inr (Break vars'), w') ->
  vars' = vars /\ 0 < i
  /\ scroll_and_measure drv (i * vh) w = (inr (last_height vars), w').
Proof.
  unfold loop_body. intros H.
  apply bind_inr in H. destruct H as (cur & w1 & Hm & H).
  destruct ((cur =? last_height vars) && (i >? 0)) eqn:E.
  - unfold ret in H. injection H as H1 H2. subst.
    apply andb_prop in E. destruct E as [E1 E2].
    apply Z.eqb_eq in E1. subst cur.
    split; [reflexivity | split; [lia | exact Hm]].
  - run_inv H. discriminate.
Qed.

Lemma loop_body_repeat vh i vars w w' :
  0 < i ->
  scroll_and_measure drv (i * vh) w = (inr (last_height vars), w') ->
  loop_body drv vh i vars w = (inr (Break vars), w').
Proof.
  intros Hi Hm. unfold loop_body. rewrite (bind_run _ _ _ _ _ Hm).
  rewrite Z.eqb_refl. replace (i >? 0) with true by lia. reflexivity.
Qed.

Lemma for_loop_length vh indices vars w vars' w' :
  for_loop drv vh indices vars w = (inr vars', w') ->
  (length (screenshots vars') <= length (screenshots vars) + length indices)%nat.
Proof.
  revert vars w. induction indices as [| i rest IH]; intros vars w H.
  - cbn in H. unfold ret in H. injection H as -> _. lia.
  - cbn [for_loop] in H. apply bind_inr in H.
    destruct H as (r & w1 & Hb & H). destruct r as [vars1 | vars1].
    + apply loop_body_Next in Hb.
      destruct Hb as (cur & w2 & img & _ & _ & Hs & _).
      apply IH in H. rewrite Hs, length_app in H. cbn in *. lia.
    + apply loop_body_Break in Hb. destruct Hb as (-> & _).
      unfold ret in H. injection H as -> _. cbn. lia.
Qed.

(** The loop never captures more sections than it has iterations. *)
Lemma capture_sections_length vh steps w sections w' :
  capture_sections drv vh steps w = (inr sections, w') ->
  Z.of_nat (length sections) <= Z.max 0 steps.
Proof.
  unfold capture_sections. intros H. run_inv H.
  injection H as <- _. apply for_loop_length in Hrun.
  unfold range in Hrun. rewrite length_map, length_seq in Hrun.
  cbn in Hrun. lia.
Qed.

Lemma at_iteration_length vh w0 n vars w :
  at_iteration drv vh w0 n vars w -> length (screenshots vars) = n.
Proof.
  induction 1 as [| n vars w vars' w' _ IH Hb].
  - reflexivity.
  - apply loop_body_Next in Hb.
    destruct Hb as (_ & _ & img & _ & _ & Hs & _).
    rewrite Hs, length_app, IH. cbn. lia.
Qed.

(** Once at iteration [n], the rest of the loop is the loop over the
    remaining indices. *)
Lemma for_loop_from vh w0 n vars w :
  at_iteration drv vh w0 n vars w ->
  forall k,
    for_loop drv vh (map Z.of_nat (seq 0 (n + k)))
      {| screenshots := []; last_height := 0 |} w0
    = for_loop drv vh (map Z.of_nat (seq n k)) vars w.
Proof.
  induction 1 as [| n vars w vars' w' _ IH Hb]; intros k.
  - reflexivity.
  - replace (S n + k)%nat with (n + S k)%nat by lia.
    rewrite IH. cbn [seq map for_loop].
    rewrite (bind_run _ _ _ _ _ Hb). reflexivity.
Qed.

Lemma capture_sections_all vh w0 n vars w steps :
  at_iteration drv vh w0 n vars w ->
  Z.to_nat steps = n ->
  capture_sections drv vh steps w0 = (inr (screenshots vars), w).
Proof.
  intros Hat Hn. unfold capture_sections, range. rewrite Hn.
  replace n with (n + 0)%nat at 1 by lia.
  unfold bind. rewrite (for_loop_from _ _ _ _ _ Hat). reflexivity.
Qed.

Lemma capture_sections_break vh w0 n vars w steps vars' w' :
  at_iteration drv vh w0 n vars w ->
  (n < Z.to_nat steps)%nat ->
  loop_body drv vh (Z.of_nat n) vars w = (inr (Break vars'), w') ->
  capture_sections drv vh steps w0 = (inr (screenshots vars'), w').
Proof.
  intros Hat Hn Hb. unfold capture_sections, range.
  replace (Z.to_nat steps) with (n + S (Z.to_nat steps - S n))%nat by lia.
  unfold bind at 1. rewrite (for_loop_from _ _ _ _ _ Hat).
  cbn [seq map for_loop]. rewrite (bind_run _ _ _ _ _ Hb). reflexivity.
Qed.

(** The recorded position is the one measured by the iteration before. *)
Lemma at_iteration_last vh w0 n vars w :
  at_iteration drv vh w0 (S n) vars w ->
  exists vars0 w1 w2,
    at_iteration drv vh w0 n vars0 w1
    /\ scroll_and_measure drv (Z.of_nat n * vh) w1
       = (inr (last_height vars), w2).
Proof.
  inversion 1 as [| n' vars0 w1 vars' w' Hat Hb]; subst.
  apply loop_body_Next in Hb.
  destruct Hb as (cur & w2 & img & Hm & _ & _ & Hl).
  exists vars0, w1, w2. rewrite Hl. auto.
Qed.
End LoopFacts.

(** ** The loop on a session that answers *)

Section ResponsiveFacts.
Context {W : Type} (drv : Driver W) (good : W -> Prop) (achieved : Z -> Z).
Hypothesis Hresp : responsive drv good achieved.

(** Something known of every screenshot taken in a good world. *)
Variable P : Image -> Prop.
Hypothesis HP : forall w data w' img,
  good w ->
  get_screenshot_as_png drv w = (inr data, w') ->
  Image_open drv data = inr img ->
  P img.

(** A new position (or the first iteration) captures a section. *)
Lemma responsive_capture vh i vars w :
  good w ->
  (i = 0 \/ achieved (i * vh) <> last_height vars) ->
  exists vars' w' img,
    loop_body drv vh i vars w = (inr (Next vars'), w')
    /\ good w' /\ last_height vars' = achieved (i * vh)
    /\ screenshots vars' = screenshots vars ++ [img]
    /\ 0 <= width img /\ P img.
Proof.
  intros Hw Hnew.
  destruct (measure_answers _ _ _ Hresp (i * vh) w Hw) as (w1 & Hm & Hw1).
  destruct (screenshot_answers _ _ _ Hresp w1 Hw1)
    as (data & img & w2 & Hs & Ho & Hwd & Hw2).
  exists {| screenshots := screenshots vars ++ [img];
            last_height := achieved (i * vh) |}, w2, img.
  split; [| split; [exact Hw2 | split; [reflexivity | split;
    [reflexivity | split; [exact Hwd | exact (HP _ _ _ _ Hw1 Hs Ho)]]]]].
  unfold loop_body. rewrite (bind_run _ _ _ _ _ Hm).
  replace ((achieved (i * vh) =? last_height vars) && (i >? 0)) with false
    by (symmetry; apply andb_false_iff; lia).
  rewrite (bind_run _ _ _ _ _ Hs). unfold lift at 1.
  unfold bind at 1. rewrite Ho. reflexivity.
Qed.

(** The recorded position again, past the first iteration: break. *)
Lemma responsive_break vh i vars w :
  good w -> 0 < i -> achieved (i * vh) = last_height vars ->
  exists w', loop_body drv vh i vars w = (inr (Break vars), w') /\ good w'.
Proof.
  intros Hw Hi Hsame.
  destruct (measure_answers _ _ _ Hresp (i * vh) w Hw) as (w1 & Hm & Hw1).
  exists w1. split; [| exact Hw1].
  apply loop_body_repeat; [exact Hi | rewrite <- Hsame; exact Hm].
Qed.

(** From iteration [i] on, the loop delivers what [captured_from]
    counts. *)
Lemma responsive_from vh steps w0 remaining :
  forall (i : nat) vars w,
    at_iteration drv vh w0 i vars w ->
    good w ->
    Forall (fun img => 0 <= width img /\ P img) (screenshots vars) ->
    ((0 < i)%nat -> last_height vars = achieved ((Z.of_nat i - 1) * vh)) ->
    (i + remaining)%nat = Z.to_nat steps ->
    exists sections w',
      capture_sections drv vh steps w0 = (inr sections, w')
      /\ length sections = captured_from achieved vh i remaining
      /\ Forall (fun img => 0 <= width img /\ P img) sections
      /\ good w'.
Proof.
  induction remaining as [| r IH]; intros i vars w Hat Hw Hwd Hlast Hsum.
  - exists (screenshots vars), w. split; [| split; [| split]].
    + apply (capture_sections_all drv vh w0 i vars w steps Hat). lia.
    + apply (at_iteration_length _ _ _ _ _ _ Hat).
    + exact Hwd.
    + exact Hw.
  - cbn [captured_from].
    destruct ((0 <? Z.of_nat i)
              && (achieved (Z.of_nat i * vh)
                  =? achieved ((Z.of_nat i - 1) * vh))) eqn:E.
    + apply andb_prop in E. destruct E as [Hi Hsame].
      apply Z.ltb_lt in Hi. apply Z.eqb_eq in Hsame.
      destruct (responsive_break vh (Z.of_nat i) vars w Hw Hi)
        as (w' & Hb & Hw').
      { rewrite Hlast by lia. exact Hsame. }
      exists (screenshots vars), w'. split; [| split; [| split]].
      * apply (capture_sections_break drv vh w0 i vars w steps vars w' Hat);
          [lia | exact Hb].
      * apply (at_iteration_length _ _ _ _ _ _ Hat).
      * exact Hwd.
      * exact Hw'.
    + destruct (responsive_capture vh (Z.of_nat i) vars w Hw)
        as (vars' & w' & img & Hb & Hw' & Hl' & Hs' & Himg & HPimg).
      { apply andb_false_iff in E. destruct E as [E | E].
        - left. apply Z.ltb_ge in E. lia.
        - destruct i as [| i']; [left; reflexivity | right].
          rewrite Hlast by lia. apply Z.eqb_neq in E. exact E. }
      apply (IH (S i) vars' w').
      * econstructor; eassumption.
      * exact Hw'.
      * rewrite Hs'. apply Forall_app. split; [exact Hwd |].
        constructor; [split; [exact Himg | exact HPimg] | constructor].
      * intros _. rewrite Hl'. f_equal. lia.
      * lia.
Qed.

(** The loop on a session that answers always ends, with the number
    of sections given by [captured_count]. *)
Lemma responsive_capture_sections vh steps w0 :
  good w0 ->
  exists sections w',
    capture_sections drv vh steps w0 = (inr sections, w')
    /\ length sections = captured_count achieved vh steps
    /\ Forall (fun img => 0 <= width img /\ P img) sections
    /\ good w'.
Proof.
  intros Hw0.
  apply (responsive_from vh steps w0 (Z.to_nat steps) 0%nat
           {| screenshots := []; last_height := 0 |} w0).
  - constructor.
  - exact Hw0.
  - constructor.
  - lia.
  - reflexivity.
Qed.
End ResponsiveFacts.

(** ** Combining the sections *)

Section StitchFacts.
Context {W : Type} (drv : Driver W).

Lemma paste_sections_size vh fh i sections canvas :
  width (paste_sections vh fh i sections canvas) = width canvas
  /\ height (paste_sections vh fh i sections canvas) = height canvas.
Proof.
  revert i canvas. induction sections as [| img rest IH]; intros i canvas.
  - split; reflexivity.
  - cbn [paste_sections]. destruct (IH (i + 1)
      (if i * vh <? fh
       then paste canvas
              (crop img 0 0 (width img) (Z.min (height img) (fh - i * vh)))
              0 (i * vh)
       else canvas)) as [Hw Hh].
    rewrite Hw, Hh. destruct (i * vh <? fh); split; reflexivity.
Qed.

Lemma Image_new_inr w h canvas :
  Image_new w h = inr canvas ->
  width canvas = w /\ height canvas = h /\ 0 <= w /\ 0 <= h
  /\ getpixel canvas = fun _ _ => black.
Proof.
  unfold Image_new. destruct ((w <? 0) || (h <? 0)) eqn:E; [discriminate |].
  intros [= <-]. apply orb_false_elim in E. cbn. repeat split; lia.
Qed.

(** No section, no image. *)
Lemma stitch_nil total vh out w :
  stitch drv total vh [] out w = (inr None, w).
Proof. reflexivity. Qed.

(** An image that comes out of [stitch] is the complete composite of
    a non-empty list of sections and has the computed size. *)
Lemma stitch_Some total vh sections out w img w' :
  stitch drv total vh sections out w = (inr (Some img), w') ->
  composite_of total vh sections img
  /\ height img = Z.min total (vh * Z.of_nat (length sections))
  /\ 0 <= height img
  /\ exists first rest, sections = first :: rest /\ width img = width first.
Proof.
  destruct sections as [| first rest]; [discriminate |].
  unfold stitch. intros H. run_inv H.
  destruct (Image_new _ _) as [e | canvas] eqn:Hnew; [discriminate |].
  injection Hrun as <- _.
  destruct (Image_new_inr _ _ _ Hnew) as (Hw & Hh & _ & Hh0 & _).
  destruct (paste_sections_size vh
    (Z.min total (vh * Z.of_nat (length (first :: rest)))) 0
    (first :: rest) canvas) as [Hpw Hph].
  set (combined := paste_sections vh _ 0 (first :: rest) canvas) in *.
  assert (img = combined) as -> by congruence.
  split; [| split; [| split]].
  - exists first, rest, canvas. rewrite Hh. auto.
  - rewrite Hph. exact Hh.
  - rewrite Hph, Hh. exact Hh0.
  - exists first, rest. rewrite Hpw. auto.
Qed.

(** The scroll-and-stitch path, taken apart. *)
Lemma scroll_and_stitch_inr vw vh total out max_scroll w r w' :
  scroll_and_stitch drv vw vh total out max_scroll w = (inr r, w') ->
  vh <> 0
  /\ exists w1 sections w2,
       set_window_size drv vw vh w = (inr tt, w1)
       /\ capture_sections drv vh (planned_scroll_steps total vh max_scroll)
            (sleep drv 1 w1) = (inr sections, w2)
       /\ stitch drv total vh sections out w2 = (inr r, w').
Proof.
  unfold scroll_and_stitch, floordiv. intros H. run_inv H.
  destruct (Z.eqb_spec vh 0) as [-> | Hvh]; [discriminate |].
  unfold ret in Hrun1. injection Hrun1 as <- <-.
  injection Hrun0 as _ <-. destruct v.
  split; [exact Hvh |]. exists w0, v2, w3. auto.
Qed.

(** ... and put together. *)
Lemma scroll_and_stitch_run vw vh total out max_scroll w w1 sections w2 :
  vh <> 0 ->
  set_window_size drv vw vh w = (inr tt, w1) ->
  capture_sections drv vh (planned_scroll_steps total vh max_scroll)
    (sleep drv 1 w1) = (inr sections, w2) ->
  scroll_and_stitch drv vw vh total out max_scroll w
  = stitch drv total vh sections out w2.
Proof.
  intros Hvh Hs Hc. unfold scroll_and_stitch.
  rewrite (bind_run _ _ _ _ _ Hs). unfold effect at 1, bind at 1.
  unfold floordiv. destruct (Z.eqb_spec vh 0) as [-> | _]; [lia |].
  unfold ret at 1, bind at 1. fold (planned_scroll_steps total vh max_scroll).
  rewrite (bind_run _ _ _ _ _ Hc). reflexivity.
Qed.
End StitchFacts.

(** ** The scripted browser answers *)

Section MockFacts.
Import Mock.

Lemma mock_settled total vh :
  responsive Mock.driver (Mock.settled total vh) (stop_at_bottom total vh).
Proof.
  split.
  - intros y [iw ih dh sy c n sv] (Hd & Hi & Hc). cbn in Hd, Hi, Hc. subst.
    eexists. split; [reflexivity |]. repeat split.
  - intros [iw ih dh sy c n sv] (Hd & Hi & Hc). cbn in Hd, Hi, Hc. subst.
    eexists _, _, _. split; [reflexivity |]. split; [reflexivity |].
    split; [| repeat split].
    cbn. unfold Z_of_byte. lia.
Qed.

Lemma mock_following vh :
  responsive Mock.driver (Mock.following vh) (fun y => y).
Proof.
  split.
  - intros y [iw ih dh sy c n sv] (Hi & Hc). cbn in Hi, Hc. subst.
    eexists. split; [reflexivity |]. split; reflexivity.
  - intros [iw ih dh sy c n sv] (Hi & Hc). cbn in Hi, Hc. subst.
    eexists _, _, _. split; [reflexivity |]. split; [reflexivity |].
    split; [| split; reflexivity].
    cbn. unfold Z_of_byte. lia.
Qed.

(** In a window 800 pixels tall every screenshot is 800 pixels tall. *)
Lemma mock_following_800 w data w' img :
  Mock.following 800 w ->
  get_screenshot_as_png Mock.driver w = (inr data, w') ->
  Image_open Mock.driver data = inr img ->
  height img = 800.
Proof.
  destruct w as [iw ih dh sy c n sv]. intros (Hi & _) Hs Ho.
  cbn in Hi. subst ih. cbn in Hs. injection Hs as <- _.
  cbn in Ho. injection Ho as <-. reflexivity.
Qed.
End MockFacts.

(** ** Runs on the scripted browser *)

Section MockRuns.
Import Mock.

(** Chrome has no native capture: three windows are stitched. *)
Example run_three_windows :
  size_of (run (Mock.page 1920 800 2400 true false) None)
  = Some (1920, 2400).
Proof. vm_compute. reflexivity. Qed.

Example run_last_window_clipped :
  size_of (run (Mock.page 1920 800 2000 true false) None)
  = Some (1920, 2000).
Proof. vm_compute. reflexivity. Qed.

(** The last window of a 2000-pixel page is taken at position 1200 and
    pasted at row 1600: row 1700 of the composite shows row 1300 of the
    page. *)
Example run_last_window_overlaps :
  option_map (fun img => getpixel img 5 1700)
    (run (Mock.page 1920 800 2000 true false) None)
  = Some (Mock.page_color 5 1300).
Proof. vm_compute. reflexivity. Qed.

Example run_with_native_capture :
  size_of (run (Mock.page 1920 800 2400 true true) None)
  = Some (1920, 2400).
Proof. vm_compute. reflexivity. Qed.

Example run_capped_at_two :
  size_of (run (Mock.page 1920 800 2400 true false) (Some 2))
  = Some (1920, 1600).
Proof. vm_compute. reflexivity. Qed.

(** [max_scroll = 0] is read as no cap. *)
Example run_cap_zero :
  size_of (run (Mock.page 1920 800 2400 true false) (Some 0))
  = Some (1920, 2400).
Proof. vm_compute. reflexivity. Qed.

(** A negative cap leaves the loop without iterations. *)
Example run_cap_negative :
  run (Mock.page 1920 800 2400 true false) (Some (-1)) = None.
Proof. vm_compute. reflexivity. Qed.

(** A window of height 0: [//] raises, the outer handler returns [None]. *)
Example run_zero_viewport :
  run (Mock.page 1920 0 2400 true false) None = None.
Proof. vm_compute. reflexivity. Qed.

Example run_page_fits_window :
  size_of (run (Mock.page 1920 800 800 true false) None)
  = Some (1920, 800).
Proof. vm_compute. reflexivity. Qed.
End MockRuns.

(** ** The whole scroll-and-stitch path on a session that answers *)

Section CompletionFacts.
Context {W : Type} (drv : Driver W) (good : W -> Prop) (achieved : Z -> Z).
Hypothesis Hresp : responsive drv good achieved.

Variable P : Image -> Prop.
Hypothesis HP : forall w data w' img,
  good w ->
  get_screenshot_as_png drv w = (inr data, w') ->
  Image_open drv data = inr img ->
  P img.

Lemma captured_from_ge vh i remaining :
  (i <= captured_from achieved vh i remaining)%nat.
Proof.
  revert i. induction remaining as [| r IH]; intros i; cbn [captured_from].
  - lia.
  - destruct (_ && _); [lia |]. specialize (IH (S i)). lia.
Qed.

Lemma captured_count_pos vh steps :
  0 < steps -> (0 < captured_count achieved vh steps)%nat.
Proof.
  intros Hs. unfold captured_count.
  destruct (Z.to_nat steps) as [| r] eqn:E; [lia |].
  cbn [captured_from]. change (0 <? Z.of_nat 0) with false. cbn [andb].
  pose proof (captured_from_ge vh 1 r). lia.
Qed.

Lemma stitch_run total vh first rest out w :
  0 <= width first ->
  0 <= Z.min total (vh * Z.of_nat (length (first :: rest))) ->
  (forall img w1, exists w2,
     save_if_requested drv out img w1 = (inr tt, w2)) ->
  exists img w',
    stitch drv total vh (first :: rest) out w = (inr (Some img), w').
Proof.
  intros Hwd Hh Hsave. unfold stitch, Image_new.
  replace ((width first <? 0)
           || (Z.min total (vh * Z.of_nat (length (first :: rest))) <? 0))
    with false by (symmetry; apply orb_false_iff; lia).
  unfold lift at 1, bind at 1.
  match goal with
  | |- context [save_if_requested drv out ?img] =>
      destruct (Hsave img w) as (w2 & Hs)
  end.
  rewrite (bind_run _ _ _ _ _ Hs). eexists _, _. reflexivity.
Qed.

(** On a session that answers, with a non-negative document height, a
    positive viewport height and at least one planned iteration, the
    scroll-and-stitch path returns an image; the loop has captured
    [captured_count] sections. *)
Lemma responsive_scroll_and_stitch vw vh total out max_scroll w w1 :
  0 < vh -> 0 <= total ->
  0 < planned_scroll_steps total vh max_scroll ->
  set_window_size drv vw vh w = (inr tt, w1) ->
  good (sleep drv 1 w1) ->
  (forall img w2, exists w3,
     save_if_requested drv out img w2 = (inr tt, w3)) ->
  exists sections w2 img w',
    capture_sections drv vh (planned_scroll_steps total vh max_scroll)
      (sleep drv 1 w1) = (inr sections, w2)
    /\ length sections
       = captured_count achieved vh
           (planned_scroll_steps total vh max_scroll)
    /\ scroll_and_stitch drv vw vh total out max_scroll w
       = (inr (Some img), w')
    /\ height img = Z.min total (vh * Z.of_nat (length sections))
    /\ composite_of total vh sections img
    /\ Forall P sections.
Proof.
  intros Hvh Htotal Hplan Hset Hgood Hsave.
  destruct (responsive_capture_sections drv good achieved Hresp P HP vh
              (planned_scroll_steps total vh max_scroll) _ Hgood)
    as (sections & w2 & Hc & Hlen & Hwd & _).
  pose proof (captured_count_pos vh _ Hplan) as Hpos.
  destruct sections as [| first rest]; [cbn in Hlen; lia |].
  destruct (stitch_run total vh first rest out w2) as (img & w' & Hst).
  { inversion Hwd as [| ? ? [Hfirst _] _]. exact Hfirst. }
  { cbn [length]. lia. }
  { exact Hsave. }
  exists (first :: rest), w2, img, w'.
  destruct (stitch_Some _ _ _ _ _ _ _ _ Hst) as (Hcomp & Hh & _).
  split; [exact Hc | split; [exact Hlen | split; [| split; [| split]]]].
  - rewrite (scroll_and_stitch_run drv vw vh total out max_scroll w w1
               (first :: rest) w2); [exact Hst | lia | exact Hset | exact Hc].
  - exact Hh.
  - exact Hcomp.
  - eapply Forall_impl; [exact Hwd |]. intros x [_ Hx]. exact Hx.
Qed.
End CompletionFacts.

(** The scripted browser always saves. *)
Lemma mock_saves out img w :
  exists w', save_if_requested Mock.driver out img w = (inr tt, w').
Proof.
  unfold save_if_requested. destruct out as [path |]; [| eexists; reflexivity].
  destruct (truthy_str (Some path)); eexists; reflexivity.
Qed.

(** A run of the scroll-and-stitch path on the scripted browser. *)
Lemma mock_scroll_and_stitch width vh total max_scroll :
  0 < vh -> 0 <= total ->
  0 < planned_scroll_steps total vh max_scroll ->
  exists sections w2 img w',
    capture_sections Mock.driver vh (planned_scroll_steps total vh max_scroll)
      (Mock.page width vh total true false) = (inr sections, w2)
    /\ length sections
       = captured_count (stop_at_bottom total vh) vh
           (planned_scroll_steps total vh max_scroll)
    /\ scroll_and_stitch Mock.driver width vh total None max_scroll
         (Mock.page width vh total true false) = (inr (Some img), w')
    /\ height img = Z.min total (vh * Z.of_nat (length sections)).
Proof.
  intros Hvh Htotal Hplan.
  destruct (responsive_scroll_and_stitch Mock.driver (Mock.settled total vh)
              (stop_at_bottom total vh) (mock_settled total vh)
              (fun _ => True) (fun _ _ _ _ _ _ _ => I)
              width vh total None max_scroll
              (Mock.page width vh total true false)
              (Mock.page width vh total true false))
    as (sections & w2 & img & w' & Hc & Hlen & Hs & Hh & _);
    try assumption.
  - reflexivity.
  - repeat split.
  - intros img w2. apply mock_saves.
  - exists sections, w2, img, w'. auto.
Qed.

(** ** The height of the composite *)

(** C2. Whenever the scroll-and-stitch path returns a composite image,
    the image is as tall as [min(total_height, viewport_height *
    len(screenshots))], where [screenshots] is what the scroll loop
    captured; so it is never taller than the measured document. *)
Theorem stitched_height_is_min {W} (drv : Driver W) vw vh total out
    max_scroll w img w' :
  scroll_and_stitch drv vw vh total out max_scroll w = (inr (Some img), w') ->
  exists w1 sections w2,
    capture_sections drv vh (planned_scroll_steps total vh max_scroll) w1
    = (inr sections, w2)
    /\ stitch drv total vh sections out w2 = (inr (Some img), w')
    /\ height img = Z.min total (vh * Z.of_nat (length sections))
    /\ height img <= total.
Proof.
  intros H. apply scroll_and_stitch_inr in H.
  destruct H as (_ & w1 & sections & w2 & _ & Hc & Hs).
  exists (sleep drv 1 w1), sections, w2.
  destruct (stitch_Some _ _ _ _ _ _ _ _ Hs) as (_ & Hh & _).
  split; [exact Hc | split; [exact Hs | split; [exact Hh | lia]]].
Qed.

Lemma stitched_height_is_min_witness :
  exists img w',
    scroll_and_stitch Mock.driver 1920 800 2000 None None
      (Mock.page 1920 800 2000 true false) = (inr (Some img), w')
    /\ height img <= 2000.
Proof.
  destruct (mock_scroll_and_stitch 1920 800 2000 None)
    as (sections & w2 & img & w' & _ & _ & E & _);
    [lia | lia | vm_compute; reflexivity |].
  exists img, w'. split; [exact E |].
  destruct (stitched_height_is_min _ _ _ _ _ _ _ _ _ E)
    as (w1 & sections' & w2' & _ & _ & _ & Hle).
  exact Hle.
Defined.

(** ** The outer handlers *)

Section MethodFacts.
Context {W : Type} (drv : Driver W).

Lemma capture_native_ok url out max_scroll w vw vh total w0 img w1 :
  load_and_measure drv url w = (inr (vw, vh, total), w0) ->
  native_capture drv vw total out w0 = (inr img, w1) ->
  capture_full_page_screenshot drv url out max_scroll w = (Some img, w1).
Proof.
  intros Hl Hn. unfold capture_full_page_screenshot, capture_body.
  rewrite (bind_run _ _ _ _ _ Hl). unfold native_or_scroll, try_except.
  rewrite (bind_run _ _ _ _ _ Hn). reflexivity.
Qed.

Lemma capture_native_fallback url out max_scroll w vw vh total w0 e w1 :
  load_and_measure drv url w = (inr (vw, vh, total), w0) ->
  native_capture drv vw total out w0 = (inl e, w1) ->
  native_handler_catches e = true ->
  capture_full_page_screenshot drv url out max_scroll w
  = seen_by_caller (scroll_and_stitch drv vw vh total out max_scroll w1).
Proof.
  intros Hl Hn He. unfold capture_full_page_screenshot, capture_body.
  rewrite (bind_run _ _ _ _ _ Hl). unfold native_or_scroll, try_except.
  rewrite (bind_raise _ _ _ _ _ Hn), He. reflexivity.
Qed.

Lemma capture_Some url out max_scroll w img w' :
  capture_full_page_screenshot drv url out max_scroll w = (Some img, w') ->
  exists vw vh total w0,
    load_and_measure drv url w = (inr (vw, vh, total), w0)
    /\ (native_capture drv vw total out w0 = (inr img, w')
        \/ exists e w1,
             native_capture drv vw total out w0 = (inl e, w1)
             /\ native_handler_catches e = true
             /\ scroll_and_stitch drv vw vh total out max_scroll w1
                = (inr (Some img), w')).
Proof.
  unfold capture_full_page_screenshot, capture_body. intros H.
  unfold bind at 1 in H.
  destruct (load_and_measure drv url w) as [[e | [[vw vh] total]] w0] eqn:Hl.
  - discriminate.
  - exists vw, vh, total, w0. split; [reflexivity |].
    unfold native_or_scroll, try_except, bind at 1 in H.
    destruct (native_capture drv vw total out w0) as [[e | full] w1] eqn:Hn.
    + right. exists e, w1. split; [reflexivity |].
      destruct (native_handler_catches e); [| discriminate].
      split; [reflexivity |].
      destruct (scroll_and_stitch drv vw vh total out max_scroll w1)
        as [[e' | r] w2]; [discriminate |].
      injection H as -> ->. reflexivity.
    + left. unfold ret in H. injection H as -> ->. reflexivity.
Qed.
End MethodFacts.

(** ** The cap on the number of sections *)

Lemma limit_scroll_steps_le steps m :
  m <> 0 -> limit_scroll_steps steps (Some m) <= m.
Proof.
  intros Hm. unfold limit_scroll_steps, truthy_int.
  destruct (Z.eqb_spec m 0) as [| _]; [contradiction |]. cbn [negb andb].
  destruct (Z.gtb_spec steps m); lia.
Qed.

(** C8. With a cap [max_scroll = m] of at least one section, the scroll
    loop is set up for at most [m] iterations, so it captures at most
    [m] sections, and an image returned by the scroll-and-stitch path is
    at most [m * viewport_height] tall: a shorter image, not a failure. *)
Theorem capped_capture_bounds {W} (drv : Driver W) vw vh total out m :
  0 < m ->
  planned_scroll_steps total vh (Some m) <= m
  /\ (forall w sections w',
        capture_sections drv vh (planned_scroll_steps total vh (Some m)) w
        = (inr sections, w') ->
        Z.of_nat (length sections) <= m)
  /\ (forall w img w',
        scroll_and_stitch drv vw vh total out (Some m) w
        = (inr (Some img), w') ->
        height img <= m * vh).
Proof.
  intros Hm.
  assert (Hplan : planned_scroll_steps total vh (Some m) <= m).
  { apply limit_scroll_steps_le. lia. }
  split; [exact Hplan | split].
  - intros w sections w' Hc. apply capture_sections_length in Hc. lia.
  - intros w img w' H. apply scroll_and_stitch_inr in H.
    destruct H as (_ & w1 & sections & w2 & _ & Hc & Hs).
    apply capture_sections_length in Hc.
    destruct (stitch_Some _ _ _ _ _ _ _ _ Hs)
      as (_ & Hh & Hh0 & first & rest & -> & _).
    cbn [length] in *. nia.
Qed.

Lemma capped_capture_bounds_witness :
  exists img w',
    scroll_and_stitch Mock.driver 1920 800 2400 None (Some 2)
      (Mock.page 1920 800 2400 true false) = (inr (Some img), w')
    /\ height img <= 2 * 800.
Proof.
  destruct (mock_scroll_and_stitch 1920 800 2400 (Some 2))
    as (sections & w2 & img & w' & _ & _ & E & _);
    [lia | lia | vm_compute; reflexivity |].
  exists img, w'. split; [exact E |].
  assert (H2 : 0 < 2) by lia.
  destruct (capped_capture_bounds Mock.driver 1920 800 2400 None 2 H2)
    as (_ & _ & Hheight).
  exact (Hheight _ _ _ E).
Defined.

(** ** Stopping at the end of the page *)

(** C3. Let the loop arrive at iteration [j] and capture there after
    measuring the position [prev].  If iteration [j + 1] measures [prev]
    again, it breaks before asking for a screenshot: the variables are
    untouched, the world is the one right after the measurement, and
    the loop ends with the [j + 1] sections captured so far, fewer than
    the iterations it was set up for. *)
Theorem repeated_offset_stops_loop {W} (drv : Driver W) vh steps w0
    (j : nat) vars w prev w1 vars' w2 w3 :
  at_iteration drv vh w0 j vars w ->
  scroll_and_measure drv (Z.of_nat j * vh) w = (inr prev, w1) ->
  loop_body drv vh (Z.of_nat j) vars w = (inr (Next vars'), w2) ->
  scroll_and_measure drv ((Z.of_nat j + 1) * vh) w2 = (inr prev, w3) ->
  Z.of_nat j + 1 < steps ->
  last_height vars' = prev
  /\ loop_body drv vh (Z.of_nat j + 1) vars' w2 = (inr (Break vars'), w3)
  /\ capture_sections drv vh steps w0 = (inr (screenshots vars'), w3)
  /\ length (screenshots vars') = S j
  /\ Z.of_nat (length (screenshots vars')) < steps.
Proof.
  intros Hat Hm Hb Hm' Hsteps.
  assert (Hat' : at_iteration drv vh w0 (S j) vars' w2)
    by (econstructor; eassumption).
  assert (Hprev : last_height vars' = prev).
  { apply loop_body_Next in Hb.
    destruct Hb as (cur & w1' & img & Hm1 & _ & _ & Hl).
    rewrite Hm in Hm1. injection Hm1 as -> _. exact Hl. }
  assert (Hbreak : loop_body drv vh (Z.of_nat j + 1) vars' w2
                   = (inr (Break vars'), w3)).
  { apply loop_body_repeat; [lia | rewrite Hprev; exact Hm']. }
  pose proof (at_iteration_length _ _ _ _ _ _ Hat') as Hlen.
  split; [exact Hprev | split; [exact Hbreak | split; [| split]]].
  - apply (capture_sections_break drv vh w0 (S j) vars' w2 steps vars' w3 Hat').
    + lia.
    + replace (Z.of_nat (S j)) with (Z.of_nat j + 1) by lia. exact Hbreak.
  - exact Hlen.
  - rewrite Hlen. lia.
Qed.

Lemma repeated_offset_stops_loop_witness :
  exists sections w,
    capture_sections Mock.driver 800 4 (Mock.page 1920 800 2400 true false)
    = (inr sections, w)
    /\ length sections = 3%nat.
Proof.
  edestruct (repeated_offset_stops_loop Mock.driver 800 4
               (Mock.page 1920 800 2400 true false) 2)
    as (_ & _ & Hc & Hlen & _).
  - econstructor; [econstructor; [constructor | reflexivity] | reflexivity].
  - reflexivity.
  - reflexivity.
  - reflexivity.
  - lia.
  - eexists _, _. split; [exact Hc | exact Hlen].
Defined.

(** ** The native attempt *)

Lemma native_capture_run {W} (drv : Driver W) vw total out w0 w1 data w2
    img w3 :
  set_window_size drv vw total w0 = (inr tt, w1) ->
  get_full_page_screenshot_as_png drv (sleep drv 1 w1) = (inr data, w2) ->
  Image_open drv data = inr img ->
  save_if_requested drv out img w2 = (inr tt, w3) ->
  native_capture drv vw total out w0 = (inr img, w3).
Proof.
  intros Hs Hg Ho Hv. unfold native_capture.
  rewrite (bind_run _ _ _ _ _ Hs). unfold effect at 1, bind at 1.
  rewrite (bind_run _ _ _ _ _ Hg). unfold lift at 1, bind at 1. rewrite Ho.
  rewrite (bind_run _ _ _ _ _ Hv). reflexivity.
Qed.

(** C7. Once the page is loaded and measured: if the window is resized,
    the native full-page screenshot is delivered and decoded (and saved
    when a path was given), the method returns that image at once, in
    the world the native attempt left, without any scrolling; if the
    native attempt raises [AttributeError] (no such capability) or a
    [WebDriverException] of any kind, the method continues with the
    scroll-and-stitch path and the caller sees the result of that path,
    never the exception. *)
Theorem native_attempt_returns_or_falls_through {W} (drv : Driver W) url out
    max_scroll w vw vh total w0 :
  load_and_measure drv url w = (inr (vw, vh, total), w0) ->
  (forall w1 data w2 img w3,
     set_window_size drv vw total w0 = (inr tt, w1) ->
     get_full_page_screenshot_as_png drv (sleep drv 1 w1) = (inr data, w2) ->
     Image_open drv data = inr img ->
     save_if_requested drv out img w2 = (inr tt, w3) ->
     capture_full_page_screenshot drv url out max_scroll w = (Some img, w3))
  /\ (forall e w1,
        native_capture drv vw total out w0 = (inl e, w1) ->
        e = AttributeError \/ isinstance_WebDriverException e = true ->
        capture_full_page_screenshot drv url out max_scroll w
        = seen_by_caller
            (scroll_and_stitch drv vw vh total out max_scroll w1)).
Proof.
  intros Hl. split.
  - intros w1 data w2 img w3 Hs Hg Ho Hv.
    apply (capture_native_ok drv url out max_scroll w vw vh total w0 img w3 Hl).
    apply (native_capture_run drv vw total out w0 w1 data w2 img w3);
      assumption.
  - intros e w1 Hn He.
    apply (capture_native_fallback drv url out max_scroll w vw vh total w0 e w1
             Hl Hn).
    destruct He as [-> | He]; [reflexivity |].
    destruct e; try discriminate He; reflexivity.
Qed.

Lemma native_attempt_returns_or_falls_through_witness :
  (exists img w',
     capture_full_page_screenshot Mock.driver "http://example.com" None None
       (Mock.page 1920 800 2400 true true) = (Some img, w')
     /\ height img = 2400)
  /\ capture_full_page_screenshot Mock.driver "http://example.com" None None
       (Mock.page 1920 800 2400 true false)
     = seen_by_caller
         (scroll_and_stitch Mock.driver 1920 800 2400 None None
            (Mock.page 1920 2400 2400 true false)).
Proof.
  split.
  - destruct (native_attempt_returns_or_falls_through Mock.driver
                "http://example.com" None None
                (Mock.page 1920 800 2400 true true) 1920 800 2400
                (Mock.page 1920 800 2400 true true) eq_refl) as [Hok _].
    eexists _, _. split.
    + eapply Hok; reflexivity.
    + reflexivity.
  - destruct (native_attempt_returns_or_falls_through Mock.driver
                "http://example.com" None None
                (Mock.page 1920 800 2400 true false) 1920 800 2400
                (Mock.page 1920 800 2400 true false) eq_refl) as [_ Hfall].
    apply (Hfall AttributeError); [reflexivity | left; reflexivity].
Defined.

(** ** Failure is signalled, images are complete *)

(** ** The number of planned iterations *)

Lemma planned_without_cap total vh :
  planned_scroll_steps total vh None = total / vh + 1.
Proof. reflexivity. Qed.

Lemma ceil_div_exact total vh :
  0 < vh -> total mod vh = 0 -> ceil_div total vh = total / vh.
Proof.
  intros Hvh Hmod. unfold ceil_div.
  rewrite Z.div_opp_l_z by lia. lia.
Qed.

Lemma ceil_div_inexact total vh :
  0 < vh -> total mod vh <> 0 -> ceil_div total vh = total / vh + 1.
Proof.
  intros Hvh Hmod. unfold ceil_div.
  rewrite Z.div_opp_l_nz by lia. lia.
Qed.

(** On a page three windows tall whose position stops at the bottom,
    the fourth iteration reads the third position again. *)
Lemma captured_count_three_windows vh :
  0 < vh -> captured_count (stop_at_bottom (3 * vh) vh) vh 4 = 3%nat.
Proof.
  intros Hvh. unfold captured_count.
  change (Z.to_nat 4) with 4%nat. cbn [captured_from].
  change (0 <? Z.of_nat 0) with false. cbn [andb].
  replace (stop_at_bottom (3 * vh) vh (Z.of_nat 1 * vh)
           =? stop_at_bottom (3 * vh) vh ((Z.of_nat 1 - 1) * vh)) with false
    by (symmetry; apply Z.eqb_neq; unfold stop_at_bottom; lia).
  rewrite andb_false_r.
  replace (stop_at_bottom (3 * vh) vh (Z.of_nat 2 * vh)
           =? stop_at_bottom (3 * vh) vh ((Z.of_nat 2 - 1) * vh)) with false
    by (symmetry; apply Z.eqb_neq; unfold stop_at_bottom; lia).
  rewrite andb_false_r.
  replace (stop_at_bottom (3 * vh) vh (Z.of_nat 3 * vh)
           =? stop_at_bottom (3 * vh) vh ((Z.of_nat 3 - 1) * vh)) with true
    by (symmetry; apply Z.eqb_eq; unfold stop_at_bottom; lia).
  reflexivity.
Qed.

(** C1, refuted as stated: for a document of 2400 pixels in a window of
    800 the loop is set up for 4 iterations, while the ceiling of
    2400 / 800 is 3; and when the position follows every request (the
    page has grown since it was measured) all 4 iterations capture. *)
Lemma planned_steps_exceed_ceiling :
  planned_scroll_steps 2400 800 None = 4
  /\ ceil_div 2400 800 = 3
  /\ planned_scroll_steps 2400 800 None <> ceil_div 2400 800
  /\ exists sections w,
       capture_sections Mock.driver 800 (planned_scroll_steps 2400 800 None)
         (Mock.page 1920 800 2400 false false) = (inr sections, w)
       /\ length sections = 4%nat.
Proof.
  split; [reflexivity | split; [reflexivity | split; [discriminate |]]].
  destruct (responsive_capture_sections Mock.driver (Mock.following 800)
              (fun y => y) (mock_following 800) (fun _ => True)
              (fun _ _ _ _ _ _ _ => I) 800
              (planned_scroll_steps 2400 800 None)
              (Mock.page 1920 800 2400 false false) (conj eq_refl eq_refl))
    as (sections & w & Hc & Hlen & _).
  exists sections, w. split; [exact Hc | exact Hlen].
Qed.

(** C1, amended.  Without a cap the loop is set up for
    [total_height // viewport_height + 1] iterations: the ceiling of the
    quotient when the viewport height does not divide the document
    height, one more when it does.  For a document exactly three
    windows tall that makes 4 planned iterations; on a session whose
    position stops at the bottom of the document the fourth iteration
    reads the third position again, so exactly 3 sections are captured
    and the composite is as tall as the document. *)
Theorem planned_steps_floor_plus_one total vh :
  0 < vh ->
  planned_scroll_steps total vh None = total / vh + 1
  /\ (total mod vh <> 0 ->
      planned_scroll_steps total vh None = ceil_div total vh)
  /\ (total mod vh = 0 ->
      planned_scroll_steps total vh None = ceil_div total vh + 1)
  /\ planned_scroll_steps (3 * vh) vh None = 4
  /\ forall {W} (drv : Driver W) good vw out w w1,
       responsive drv good (stop_at_bottom (3 * vh) vh) ->
       set_window_size drv vw vh w = (inr tt, w1) ->
       good (sleep drv 1 w1) ->
       (forall img w2, exists w3,
          save_if_requested drv out img w2 = (inr tt, w3)) ->
       exists sections w2 img w',
         capture_sections drv vh (planned_scroll_steps (3 * vh) vh None)
           (sleep drv 1 w1) = (inr sections, w2)
         /\ length sections = 3%nat
         /\ scroll_and_stitch drv vw vh (3 * vh) out None w
            = (inr (Some img), w')
         /\ height img = 3 * vh.
Proof.
  intros Hvh.
  assert (Hfour : planned_scroll_steps (3 * vh) vh None = 4).
  { rewrite planned_without_cap, Z.div_mul by lia. reflexivity. }
  split; [apply planned_without_cap | split; [| split; [| split]]].
  - intros Hmod. rewrite planned_without_cap, ceil_div_inexact by assumption.
    reflexivity.
  - intros Hmod. rewrite planned_without_cap, ceil_div_exact by assumption.
    reflexivity.
  - exact Hfour.
  - intros W drv good vw out w w1 Hresp Hset Hgood Hsave.
    destruct (responsive_scroll_and_stitch drv good _ Hresp (fun _ => True)
                (fun _ _ _ _ _ _ _ => I) vw vh (3 * vh) out None w w1)
      as (sections & w2 & img & w' & Hc & Hlen & Hs & Hh & _);
      [lia | lia | lia | exact Hset | exact Hgood | exact Hsave |].
    rewrite Hfour, captured_count_three_windows in Hlen by exact Hvh.
    exists sections, w2, img, w'.
    split; [exact Hc | split; [exact Hlen | split; [exact Hs |]]].
    rewrite Hh, Hlen. lia.
Qed.

Lemma planned_steps_floor_plus_one_witness :
  planned_scroll_steps 2400 800 None = 2400 / 800 + 1
  /\ exists sections w2 img w',
       capture_sections Mock.driver 800 (planned_scroll_steps 2400 800 None)
         (Mock.page 1920 800 2400 true false) = (inr sections, w2)
       /\ length sections = 3%nat
       /\ scroll_and_stitch Mock.driver 1920 800 2400 None None
            (Mock.page 1920 800 2400 true false) = (inr (Some img), w')
       /\ height img = 2400.
Proof.
  assert (H800 : 0 < 800) by lia.
  destruct (planned_steps_floor_plus_one 2400 800 H800)
    as (Hplan & _ & _ & _ & Hrun).
  split; [exact Hplan |].
  apply (Hrun Mock.world Mock.driver (Mock.settled 2400 800) 1920 None
           (Mock.page 1920 800 2400 true false)
           (Mock.page 1920 800 2400 true false)).
  - apply (mock_settled 2400 800).
  - reflexivity.
  - repeat split.
  - intros img w2. apply mock_saves.
Defined.

(** ** Pages that fit in the window *)

Lemma captured_count_short_page total vh steps :
  0 < vh -> total <= vh -> 1 <= steps <= 2 ->
  captured_count (stop_at_bottom total vh) vh steps = 1%nat.
Proof.
  intros Hvh Ht Hs. unfold captured_count.
  assert (steps = 1 \/ steps = 2) as [-> | ->] by lia.
  - reflexivity.
  - change (Z.to_nat 2) with 2%nat. cbn [captured_from].
    change (0 <? Z.of_nat 0) with false. cbn [andb].
    replace (stop_at_bottom total vh (Z.of_nat 1 * vh)
             =? stop_at_bottom total vh ((Z.of_nat 1 - 1) * vh)) with true
      by (symmetry; apply Z.eqb_eq; unfold stop_at_bottom; lia).
    reflexivity.
Qed.

Lemma planned_short_page total vh max_scroll :
  0 < vh -> 0 <= total <= vh ->
  (forall m, max_scroll = Some m -> 0 <= m) ->
  1 <= planned_scroll_steps total vh max_scroll <= 2.
Proof.
  intros Hvh Ht Hcap.
  assert (Hq : 0 <= total / vh <= 1).
  { split; [apply Z.div_pos; lia |].
    destruct (Z.eq_dec total vh) as [-> | Hne].
    - rewrite Z.div_same by lia. lia.
    - rewrite Z.div_small by lia. lia. }
  unfold planned_scroll_steps, limit_scroll_steps, truthy_int.
  destruct max_scroll as [m |]; [| lia].
  specialize (Hcap m eq_refl).
  destruct (Z.eqb_spec m 0); cbn [negb andb]; [lia |].
  destruct (Z.gtb_spec (total / vh + 1) m); lia.
Qed.

(** C5. For a document no taller than the window (and not of negative
    height), on a session whose position stops at the bottom of the
    document, with no cap or a cap that is not negative, the
    scroll-and-stitch path captures exactly one section and returns a
    composite exactly as tall as the document. *)
Theorem short_page_one_section {W} (drv : Driver W) good vw vh total out
    max_scroll w w1 :
  0 < vh -> 0 <= total -> total <= vh ->
  (forall m, max_scroll = Some m -> 0 <= m) ->
  responsive drv good (stop_at_bottom total vh) ->
  set_window_size drv vw vh w = (inr tt, w1) ->
  good (sleep drv 1 w1) ->
  (forall img w2, exists w3,
     save_if_requested drv out img w2 = (inr tt, w3)) ->
  exists sections w2 img w',
    capture_sections drv vh (planned_scroll_steps total vh max_scroll)
      (sleep drv 1 w1) = (inr sections, w2)
    /\ length sections = 1%nat
    /\ scroll_and_stitch drv vw vh total out max_scroll w
       = (inr (Some img), w')
    /\ height img = total.
Proof.
  intros Hvh Ht0 Ht Hcap Hresp Hset Hgood Hsave.
  pose proof (planned_short_page total vh max_scroll Hvh (conj Ht0 Ht) Hcap)
    as Hplan.
  destruct (responsive_scroll_and_stitch drv good _ Hresp (fun _ => True)
              (fun _ _ _ _ _ _ _ => I) vw vh total out max_scroll w w1)
    as (sections & w2 & img & w' & Hc & Hlen & Hs & Hh & _);
    [lia | lia | lia | exact Hset | exact Hgood | exact Hsave |].
  rewrite captured_count_short_page in Hlen by assumption.
  exists sections, w2, img, w'.
  split; [exact Hc | split; [exact Hlen | split; [exact Hs |]]].
  rewrite Hh, Hlen. lia.
Qed.

Lemma short_page_one_section_witness :
  exists sections w2 img w',
    capture_sections Mock.driver 800 (planned_scroll_steps 800 800 None)
      (Mock.page 1920 800 800 true false) = (inr sections, w2)
    /\ length sections = 1%nat
    /\ scroll_and_stitch Mock.driver 1920 800 800 None None
         (Mock.page 1920 800 800 true false) = (inr (Some img), w')
    /\ height img = 800.
Proof.
  apply (short_page_one_section Mock.driver (Mock.settled 800 800) 1920 800
           800 None None (Mock.page 1920 800 800 true false)
           (Mock.page 1920 800 800 true false)).
  - lia.
  - lia.
  - lia.
  - intros m Hm. discriminate Hm.
  - apply (mock_settled 800 800).
  - reflexivity.
  - repeat split.
  - intros img w2. apply mock_saves.
Defined.

(** ** Pasting the sections *)

Section PasteFacts.
Implicit Types (sections : list Image) (canvas img : Image).

(** Sections from index [start] on leave the rows above
    [start * viewport_height] alone. *)
Lemma paste_sections_above vh fh sections :
  forall start canvas x y,
    0 <= vh -> y < start * vh ->
    getpixel (paste_sections vh fh start sections canvas) x y
    = getpixel canvas x y.
Proof.
  induction sections as [| img rest IH]; intros start canvas x y Hvh Hy.
  - reflexivity.
  - cbn [paste_sections]. rewrite IH by lia.
    destruct (start * vh <? fh); [| reflexivity].
    cbn [paste getpixel].
    replace (start * vh <=? y) with false by lia.
    rewrite andb_false_r. reflexivity.
Qed.

Lemma paste_sections_app vh fh pre :
  forall start post canvas,
    paste_sections vh fh start (pre ++ post) canvas
    = paste_sections vh fh (start + Z.of_nat (length pre)) post
        (paste_sections vh fh start pre canvas).
Proof.
  induction pre as [| img pre IH]; intros start post canvas.
  - cbn. rewrite Z.add_0_r. reflexivity.
  - cbn [app paste_sections length]. rewrite IH. f_equal. lia.
Qed.

(** Row [y] of section [i] lands on row [i * viewport_height + y] of the
    composite, as long as that row exists and the next section does not
    start above it. *)
Lemma paste_sections_pixel vh fh sections :
  forall start canvas (i : nat) img x y,
    0 < vh ->
    sections !! i = Some img ->
    0 <= x < width img ->
    0 <= y < height img -> y < vh ->
    (start + Z.of_nat i) * vh + y < fh ->
    getpixel (paste_sections vh fh start sections canvas) x
      ((start + Z.of_nat i) * vh + y)
    = getpixel img x y.
Proof.
  induction sections as [| first rest IH];
    intros start canvas i img x y Hvh Hi Hx Hy Hyv Hfh.
  - discriminate Hi.
  - destruct i as [| i'].
    + cbn in Hi. injection Hi as ->. cbn [paste_sections].
      change (Z.of_nat 0) with 0 in *. rewrite Z.add_0_r in *.
      rewrite paste_sections_above by lia.
      replace (start * vh <? fh) with true by lia.
      cbn [paste crop getpixel width height].
      replace (0 <=? x) with true by lia.
      replace (x <? 0 + (width img - 0)) with true by lia.
      replace (start * vh <=? start * vh + y) with true by lia.
      replace (start * vh + y
               <? start * vh + (Z.min (height img) (fh - start * vh) - 0))
        with true by lia.
      cbn [andb].
      replace (0 <=? x - 0 + 0) with true by lia.
      replace (x - 0 + 0 <? width img) with true by lia.
      replace (0 <=? start * vh + y - start * vh + 0) with true by lia.
      replace (start * vh + y - start * vh + 0 <? height img)
        with true by lia.
      cbn [andb]. f_equal; lia.
    + cbn in Hi. cbn [paste_sections].
      replace ((start + Z.of_nat (S i')) * vh + y)
        with ((start + 1 + Z.of_nat i') * vh + y) by lia.
      apply IH; try assumption. lia.
Qed.
End PasteFacts.

(** With positions 0, 800 and 1600 read back, three iterations capture
    three sections. *)
Lemma captured_count_scenario achieved :
  achieved 0 = 0 -> achieved 800 = 800 -> achieved 1600 = 1600 ->
  captured_count achieved 800 3 = 3%nat.
Proof.
  intros H0 H1 H2. unfold captured_count.
  change (Z.to_nat 3) with 3%nat. cbn [captured_from].
  change (Z.of_nat 0) with 0. change (Z.of_nat 1 * 800) with 800.
  change ((Z.of_nat 1 - 1) * 800) with 0.
  change (Z.of_nat 2 * 800) with 1600.
  change ((Z.of_nat 2 - 1) * 800) with 800.
  rewrite H0, H1, H2. reflexivity.
Qed.

(** C4. Row [y] of section [i] is found on row [i * viewport_height + y]
    of the composite (for the rows the composite has and the next
    section does not cover); the region pasted for section [i] is the
    section cut to [min(img.height, final_height - i * viewport_height)]
    rows, so a section reaching past the end of the canvas is clipped
    to what is left.  In particular, for a document of 2000 pixels in a
    window of 800 with positions 0, 800, 1600 read back and screenshots
    800 pixels tall: 3 planned iterations, 3 sections, a composite
    2000 pixels tall, the last section cut to 400 rows and pasted at
    row 1600.  (A section that would start at or below the end of the
    canvas has nothing left to show and is passed over.) *)
Theorem sections_pasted_and_clipped :
  (forall vh fh sections canvas (i : nat) img x y,
     0 < vh ->
     sections !! i = Some img ->
     0 <= x < width img ->
     0 <= y < height img -> y < vh ->
     Z.of_nat i * vh + y < fh ->
     getpixel (paste_sections vh fh 0 sections canvas) x
       (Z.of_nat i * vh + y)
     = getpixel img x y)
  /\ (forall vh fh pre img post canvas,
        let y_offset := Z.of_nat (length pre) * vh in
        let region :=
          crop img 0 0 (width img) (Z.min (height img) (fh - y_offset)) in
        y_offset < fh ->
        paste_sections vh fh 0 (pre ++ img :: post) canvas
        = paste_sections vh fh (Z.of_nat (length pre) + 1) post
            (paste (paste_sections vh fh 0 pre canvas) region 0 y_offset)
        /\ height region <= fh - y_offset
        /\ (fh - y_offset < height img -> height region = fh - y_offset))
  /\ (forall vh fh pre img post canvas,
        fh <= Z.of_nat (length pre) * vh ->
        paste_sections vh fh 0 (pre ++ img :: post) canvas
        = paste_sections vh fh (Z.of_nat (length pre) + 1) post
            (paste_sections vh fh 0 pre canvas))
  /\ (forall {W} (drv : Driver W) good achieved vw out w w1,
        responsive drv good achieved ->
        achieved 0 = 0 -> achieved 800 = 800 -> achieved 1600 = 1600 ->
        (forall w2 data w3 img,
           good w2 ->
           get_screenshot_as_png drv w2 = (inr data, w3) ->
           Image_open drv data = inr img ->
           height img = 800) ->
        set_window_size drv vw 800 w = (inr tt, w1) ->
        good (sleep drv 1 w1) ->
        (forall img w2, exists w3,
           save_if_requested drv out img w2 = (inr tt, w3)) ->
        exists s0 s1 s2 w2 img w',
          planned_scroll_steps 2000 800 None = 3
          /\ capture_sections drv 800 3 (sleep drv 1 w1)
             = (inr [s0; s1; s2], w2)
          /\ scroll_and_stitch drv vw 800 2000 out None w
             = (inr (Some img), w')
          /\ height img = Z.min 2000 2400
          /\ height img = 2000
          /\ img
             = paste
                 (paste
                    (paste
                       {| width := width s0; height := 2000;
                          getpixel := fun _ _ => black |}
                       (crop s0 0 0 (width s0) 800) 0 0)
                    (crop s1 0 0 (width s1) 800) 0 800)
                 (crop s2 0 0 (width s2) 400) 0 1600).
Proof.
  split; [| split; [| split]].
  - intros vh fh sections canvas i img x y Hvh Hi Hx Hy Hyv Hfh.
    apply (paste_sections_pixel vh fh sections 0 canvas i img x y);
      assumption.
  - intros vh fh pre img post canvas y_offset region Hlt.
    split; [| split].
    + rewrite paste_sections_app. cbn [paste_sections].
      rewrite Z.add_0_l. fold y_offset.
      replace (y_offset <? fh) with true by lia. reflexivity.
    + subst region. cbn [crop height]. lia.
    + intros Htall. subst region. cbn [crop height]. lia.
  - intros vh fh pre img post canvas Hge.
    rewrite paste_sections_app. cbn [paste_sections]. rewrite Z.add_0_l.
    replace (Z.of_nat (length pre) * vh <? fh) with false by lia.
    reflexivity.
  - intros W drv good achieved vw out w w1 Hresp H0 H1 H2 Hshot Hset Hgood
      Hsave.
    destruct (responsive_scroll_and_stitch drv good achieved Hresp
                (fun img => height img = 800) Hshot vw 800 2000 out None w w1)
      as (sections & w2 & img & w' & Hc & Hlen & Hs & Hh & Hcomp & Hall);
      [lia | lia | reflexivity | exact Hset | exact Hgood | exact Hsave |].
    change (planned_scroll_steps 2000 800 None) with 3 in Hc, Hlen.
    rewrite captured_count_scenario in Hlen by assumption.
    destruct sections as [| s0 [| s1 [| s2 [| s3 rest]]]];
      try discriminate Hlen.
    inversion Hall as [| ? ? Hh0 Hall1]; subst.
    inversion Hall1 as [| ? ? Hh1 Hall2]; subst.
    inversion Hall2 as [| ? ? Hh2 _]; subst.
    exists s0, s1, s2, w2, img, w'.
    split; [reflexivity | split; [exact Hc | split; [exact Hs |]]].
    split; [exact Hh | split; [exact Hh |]].
    destruct Hcomp as (first & rest & canvas & Hsec & Hnew & Himg).
    injection Hsec as <- <-.
    apply Image_new_inr in Hnew.
    destruct Hnew as (Hcw & Hch & _ & _ & Hcp).
    destruct canvas as [cw ch cp]. cbn in Hcw, Hch, Hcp. subst cw ch cp.
    rewrite Himg. cbn [paste_sections height].
    rewrite Hh0, Hh1, Hh2. reflexivity.
Qed.

Lemma sections_pasted_and_clipped_witness :
  exists s0 s1 s2 w2 img w',
    capture_sections Mock.driver 800 3 (Mock.page 1920 800 2000 false false)
    = (inr [s0; s1; s2], w2)
    /\ scroll_and_stitch Mock.driver 1920 800 2000 None None
         (Mock.page 1920 800 2000 false false) = (inr (Some img), w')
    /\ height img = 2000
    /\ img
       = paste
           (paste
              (paste
                 {| width := width s0; height := 2000;
                    getpixel := fun _ _ => black |}
                 (crop s0 0 0 (width s0) 800) 0 0)
              (crop s1 0 0 (width s1) 800) 0 800)
           (crop s2 0 0 (width s2) 400) 0 1600.
Proof.
  destruct sections_pasted_and_clipped as (_ & _ & _ & Hscenario).
  destruct (Hscenario Mock.world Mock.driver (Mock.following 800)
              (fun y => y) 1920 None
              (Mock.page 1920 800 2000 false false)
              (Mock.page 1920 800 2000 false false)
              (mock_following 800) eq_refl eq_refl eq_refl
              mock_following_800 eq_refl (conj eq_refl eq_refl)
              (mock_saves None))
    as (s0 & s1 & s2 & w2 & img & w' & _ & Hc & Hs & _ & Hh & Himg).
  exists s0, s1, s2, w2, img, w'. auto.
Defined.

(** ** Failure or a complete composite *)





(** ** Matching a region with the DOM *)

Lemma match_image_ignores_extras region region' dom_images vw vw' vh vh' :
  match_image_with_dom region' dom_images vw' vh'
  = match_image_with_dom region dom_images vw vh.
Proof.
  induction dom_images as [| img rest IH]; [reflexivity |].
  cbn [match_image_with_dom]. rewrite IH. reflexivity.
Qed.

Lemma match_image_Some region dom_images vw vh img :
  match_image_with_dom region dom_images vw vh = Some img <->
  exists pre post,
    dom_images = pre ++ img :: post
    /\ Forall (fun d => without_alt d = false) pre
    /\ without_alt img = true.
Proof.
  split.
  - induction dom_images as [| d rest IH]; [discriminate |].
    cbn [match_image_with_dom]. destruct (without_alt d) eqn:E.
    + intros [= ->]. exists [], rest. auto.
    + intros H. destruct (IH H) as (pre & post & -> & Hpre & Himg).
      exists (d :: pre), post. auto.
  - intros (pre & post & -> & Hpre & Himg).
    induction Hpre as [| d pre Hd _ IH].
    + cbn. rewrite Himg. reflexivity.
    + cbn [app match_image_with_dom]. rewrite Hd. exact IH.
Qed.

Lemma match_image_None region dom_images vw vh :
  match_image_with_dom region dom_images vw vh = None <->
  Forall (fun d => without_alt d = false) dom_images.
Proof.
  induction dom_images as [| d rest IH].
  - split; [constructor | reflexivity].
  - cbn [match_image_with_dom]. destruct (without_alt d) eqn:E.
    + split; [discriminate |]. intros H. inversion H; congruence.
    + rewrite IH. split.
      * intros H. constructor; assumption.
      * intros H. inversion H; assumption.
Qed.

(** C9. [match_image_with_dom] returns the first dictionary of the list,
    in list order, whose [has_alt] is false (or absent) or whose
    [empty_alt] is true, and [None] when the list has none; the region
    and the viewport size have no influence on the result. *)
Theorem match_image_is_first_without_alt region
    (dom_images : list (gmap string pyval)) vw vh :
  (forall img,
     match_image_with_dom region dom_images vw vh = Some img <->
     exists pre post,
       dom_images = pre ++ img :: post
       /\ Forall (fun d => without_alt d = false) pre
       /\ without_alt img = true)
  /\ (match_image_with_dom region dom_images vw vh = None <->
      Forall (fun d => without_alt d = false) dom_images)
  /\ (forall img : gmap string pyval,
        without_alt img = true <->
        truthy (default (PyBool false) (img !! "has_alt")) = false
        \/ truthy (default (PyBool false) (img !! "empty_alt")) = true)
  /\ (forall region' vw' vh',
        match_image_with_dom region' dom_images vw' vh'
        = match_image_with_dom region dom_images vw vh).
Proof.
  split; [| split; [| split]].
  - intros img. apply match_image_Some.
  - apply match_image_None.
  - intros img. unfold without_alt, dict_get.
    rewrite orb_true_iff, negb_true_iff. reflexivity.
  - intros region' vw' vh'. apply match_image_ignores_extras.
Qed.

(** ** Unknown deficiency types *)

(** C10. For a deficiency type other than the four known names,
    [simulate_colorblindness] returns the image it was given; no matrix
    is applied. *)
Theorem unknown_deficiency_is_identity
    (apply_matrix : list (list Z) -> Image -> Image) image
    (colorblind_type : string) :
  colorblind_type <> "protanopia" ->
  colorblind_type <> "deuteranopia" ->
  colorblind_type <> "tritanopia" ->
  colorblind_type <> "achromatopsia" ->
  simulate_colorblindness apply_matrix image colorblind_type = image.
Proof.
  intros Hp Hd Ht Ha. unfold simulate_colorblindness.
  apply String.eqb_neq in Hp, Hd, Ht, Ha.
  rewrite Hp, Hd, Ht, Ha. reflexivity.
Qed.

Lemma unknown_deficiency_is_identity_witness :
  simulate_colorblindness exact_apply_matrix
    {| width := 2; height := 1; getpixel := fun x _ => (200 * x, 30, 90) |}
    "normal"
  = {| width := 2; height := 1; getpixel := fun x _ => (200 * x, 30, 90) |}.
Proof.
  apply unknown_deficiency_is_identity; discriminate.
Defined.

Lemma match_image_is_first_without_alt_witness :
  match_image_with_dom (10, 20, 300, 200)
    [described_image; blank_alt_image; background_image] 1920 1080
  = Some blank_alt_image
  /\ match_image_with_dom (640, 480, 32, 32)
       [described_image; blank_alt_image; background_image] 800 600
     = Some blank_alt_image.
Proof.
  destruct (match_image_is_first_without_alt (10, 20, 300, 200)
              [described_image; blank_alt_image; background_image] 1920 1080)
    as (Hsome & _ & _ & Hsame).
  assert (H : match_image_with_dom (10, 20, 300, 200)
                [described_image; blank_alt_image; background_image]
                1920 1080 = Some blank_alt_image).
  { apply Hsome. exists [described_image], [background_image].
    split; [reflexivity | split].
    - constructor; [vm_compute; reflexivity | constructor].
    - vm_compute. reflexivity. }
  split; [exact H | rewrite Hsame; exact H].
Defined.

(** * Further properties of the capture *)

(** ** Width of the composite *)

(** X1. The composite returned by the scroll-and-stitch path is as wide
    as the first captured section, whatever the widths of the later
    ones. *)
Theorem composite_width_is_first_width {W} (drv : Driver W) vw vh total out
    max_scroll w img w' :
  scroll_and_stitch drv vw vh total out max_scroll w = (inr (Some img), w') ->
  exists w1 first rest w2,
    capture_sections drv vh (planned_scroll_steps total vh max_scroll) w1
    = (inr (first :: rest), w2)
    /\ width img = width first.
Proof.
  intros H. apply scroll_and_stitch_inr in H.
  destruct H as (_ & w1 & sections & w2 & _ & Hc & Hs).
  destruct (stitch_Some _ _ _ _ _ _ _ _ Hs)
    as (_ & _ & _ & first & rest & -> & Hw).
  exists (sleep drv 1 w1), first, rest, w2. split; [exact Hc | exact Hw].
Qed.

Lemma composite_width_is_first_width_witness :
  exists img w' first,
    scroll_and_stitch Mock.driver 1920 800 2000 None None
      (Mock.page 1920 800 2000 true false) = (inr (Some img), w')
    /\ width img = width first.
Proof.
  destruct (mock_scroll_and_stitch 1920 800 2000 None)
    as (sections & w2 & img & w' & _ & _ & E & _);
    [lia | lia | vm_compute; reflexivity |].
  destruct (composite_width_is_first_width _ _ _ _ _ _ _ _ _ E)
    as (w1 & first & rest & w3 & _ & Hw).
  exists img, w', first. split; [exact E | exact Hw].
Defined.

(** ** The first iteration *)

Lemma for_loop_grows {W} (drv : Driver W) vh indices :
  forall vars w vars' w',
    for_loop drv vh indices vars w = (inr vars', w') ->
    (length (screenshots vars) <= length (screenshots vars'))%nat.
Proof.
  induction indices as [| i rest IH]; intros vars w vars' w' H.
  - cbn in H. unfold ret in H. injection H as -> _. lia.
  - cbn [for_loop] in H. apply bind_inr in H.
    destruct H as (r & w1 & Hb & H). destruct r as [vars1 | vars1].
    + apply loop_body_Next in Hb.
      destruct Hb as (cur & w2 & img & _ & _ & Hs & _).
      apply IH in H. rewrite Hs, length_app in H. cbn in H. lia.
    + apply loop_body_Break in Hb. destruct Hb as (-> & _).
      unfold ret in H. injection H as -> _. lia.
Qed.

(** With at least one iteration, a loop that ends without an exception
    has captured at least one section: iteration 0 never breaks. *)
Lemma capture_sections_nonempty {W} (drv : Driver W) vh steps w sections w' :
  0 < steps ->
  capture_sections drv vh steps w = (inr sections, w') ->
  sections <> [].
Proof.
  intros Hs H. unfold capture_sections in H. run_inv H.
  injection H as <- _. unfold range in Hrun.
  destruct (Z.to_nat steps) as [| n] eqn:E; [lia |].
  cbn [seq map for_loop] in Hrun. apply bind_inr in Hrun.
  destruct Hrun as (r & w1 & Hb & Hrest). destruct r as [vars1 | vars1].
  - apply loop_body_Next in Hb.
    destruct Hb as (cur & w2 & img & _ & _ & Hsh & _).
    apply for_loop_grows in Hrest. rewrite Hsh in Hrest. cbn in Hrest.
    intros Hnil. rewrite Hnil in Hrest. cbn in Hrest. lia.
  - apply loop_body_Break in Hb. cbn in Hb. lia.
Qed.

Lemma planned_positive total vh max_scroll :
  0 < vh -> 0 <= total ->
  (forall m, max_scroll = Some m -> 0 <= m) ->
  0 < planned_scroll_steps total vh max_scroll.
Proof.
  intros Hvh Ht Hcap.
  assert (Hq : 0 <= total / vh) by (apply Z.div_pos; lia).
  unfold planned_scroll_steps, limit_scroll_steps, truthy_int.
  destruct max_scroll as [m |]; [| lia].
  specialize (Hcap m eq_refl).
  destruct (Z.eqb_spec m 0); cbn [negb andb]; [lia |].
  destruct (Z.gtb_spec (total / vh + 1) m); lia.
Qed.

(** X2. For a positive viewport height, a document height that is not
    negative and a cap that is absent or not negative, the
    scroll-and-stitch path never comes back empty-handed without an
    exception: whenever it returns, it returns an image.  The branch
    "no sections were captured" is out of reach for such sizes. *)
Theorem scroll_path_returns_an_image {W} (drv : Driver W) vw vh total out
    max_scroll w r w' :
  0 < vh -> 0 <= total ->
  (forall m, max_scroll = Some m -> 0 <= m) ->
  scroll_and_stitch drv vw vh total out max_scroll w = (inr r, w') ->
  exists img, r = Some img.
Proof.
  intros Hvh Ht Hcap H. apply scroll_and_stitch_inr in H.
  destruct H as (_ & w1 & sections & w2 & _ & Hc & Hs).
  apply capture_sections_nonempty in Hc;
    [| apply planned_positive; assumption].
  destruct r as [img |]; [exists img; reflexivity |].
  destruct sections as [| first rest]; [contradiction |].
  unfold stitch in Hs. run_inv Hs. discriminate.
Qed.

Lemma scroll_path_returns_an_image_witness :
  exists r w',
    scroll_and_stitch Mock.driver 1920 800 2400 None (Some 0)
      (Mock.page 1920 800 2400 true false) = (inr r, w')
    /\ exists img, r = Some img.
Proof.
  destruct (mock_scroll_and_stitch 1920 800 2400 (Some 0))
    as (sections & w2 & img & w' & _ & _ & E & _);
    [lia | lia | vm_compute; reflexivity |].
  exists (Some img), w'. split; [exact E |].
  apply (scroll_path_returns_an_image Mock.driver 1920 800 2400 None (Some 0)
           (Mock.page 1920 800 2400 true false) (Some img) w');
    [lia | lia | | exact E].
  intros m [= <-]. lia.
Defined.

(** ** Saving *)

Lemma save_if_requested_path {W} (drv : Driver W) path img w w' :
  path <> EmptyString ->
  save_if_requested drv (Some path) img w = (inr tt, w') ->
  makedirs_and_save drv path img w = (inr tt, w').
Proof.
  intros Hp. unfold save_if_requested, truthy_str.
  destruct path; [contradiction | auto].
Qed.

(** Closes a goal "the image was saved" with the run of
    [save_if_requested] found among the hypotheses. *)
Ltac saved_by Hp :=
  match goal with
  | Hs : save_if_requested _ (Some _) _ ?w0 = (inr ?u, _) |- _ =>
      destruct u; exists w0; apply save_if_requested_path;
      [exact Hp | exact Hs]
  end.

Lemma native_capture_saved {W} (drv : Driver W) vw total path img w w' :
  path <> EmptyString ->
  native_capture drv vw total (Some path) w = (inr img, w') ->
  exists w0, makedirs_and_save drv path img w0 = (inr tt, w').
Proof.
  intros Hp H. unfold native_capture in H. run_inv H.
  injection H as <- <-. saved_by Hp.
Qed.

Lemma stitch_saved {W} (drv : Driver W) total vh sections path img w w' :
  path <> EmptyString ->
  stitch drv total vh sections (Some path) w = (inr (Some img), w') ->
  exists w0, makedirs_and_save drv path img w0 = (inr tt, w').
Proof.
  intros Hp H. destruct sections as [| first rest]; [discriminate |].
  unfold stitch in H. run_inv H.
  set (combined := paste_sections vh _ 0 (first :: rest) v) in *.
  assert (img = combined) as -> by congruence.
  match goal with
  | H' : (_, ?wl) = (inr (Some _), w') |- _ =>
      assert (w' = wl) as -> by congruence
  end.
  saved_by Hp.
Qed.

(** X3. When a non-empty output path is given, an image is only ever
    returned after that very image has been written to the path: the
    last thing that happened before the return is the successful save.
    This holds for the full-page capture (native or stitched) and for
    the standard capture; an image that cannot be saved is not
    returned. *)
Theorem returned_image_was_saved {W} (drv : Driver W) url path max_scroll
    w img w' :
  path <> EmptyString ->
  (capture_full_page_screenshot drv url (Some path) max_scroll w
   = (Some img, w') ->
   exists w0, makedirs_and_save drv path img w0 = (inr tt, w'))
  /\ (capture_screenshot drv url (Some path) w = (Some img, w') ->
      exists w0, makedirs_and_save drv path img w0 = (inr tt, w')).
Proof.
  intros Hp. split.
  - intros H. apply capture_Some in H.
    destruct H as (vw & vh & total & w0 & _ & [Hn | (e & w1 & _ & _ & Hs)]).
    + apply (native_capture_saved drv vw total path img w0 w' Hp Hn).
    + apply scroll_and_stitch_inr in Hs.
      destruct Hs as (_ & w2 & sections & w3 & _ & _ & Hst).
      apply (stitch_saved drv total vh sections path img w3 w' Hp Hst).
  - unfold capture_screenshot. intros H.
    destruct (capture_screenshot_body drv url (Some path) w)
      as [[e | image] w1] eqn:E; [discriminate |].
    injection H as -> ->. unfold capture_screenshot_body in E. run_inv E.
    injection E as <- <-. saved_by Hp.
Qed.

Lemma returned_image_was_saved_witness :
  (exists img w' w0,
     capture_full_page_screenshot Mock.driver "http://example.com"
       (Some "screenshots/page.png") None
       (Mock.page 1920 800 2400 true true) = (Some img, w')
     /\ makedirs_and_save Mock.driver "screenshots/page.png" img w0
        = (inr tt, w'))
  /\ fst (capture_full_page_screenshot Faulty.read_only "http://example.com"
            (Some "screenshots/page.png") None
            (Mock.page 1920 800 2400 true true)) = None.
Proof.
  split; [| reflexivity].
  assert (Hp : "screenshots/page.png" <> EmptyString) by discriminate.
  destruct (returned_image_was_saved Mock.driver "http://example.com"
              "screenshots/page.png" None
              (Mock.page 1920 800 2400 true true)
              {| width := 1920; height := 2400;
                 getpixel := fun x y => Mock.page_color x (y + 0) |}
              (Mock.with_saved "screenshots/page.png"
                 (Mock.page 1920 2400 2400 true true)) Hp) as [Hfull _].
  destruct (Hfull eq_refl) as (w0 & Hsave).
  eexists _, _, w0. split; [reflexivity | exact Hsave].
Defined.

(** ** Failures *)

Lemma capture_sections_raises {W} (drv : Driver W) vh w0 n vars w steps e w' :
  at_iteration drv vh w0 n vars w ->
  (n < Z.to_nat steps)%nat ->
  loop_body drv vh (Z.of_nat n) vars w = (inl e, w') ->
  capture_sections drv vh steps w0 = (inl e, w').
Proof.
  intros Hat Hn Hb. unfold capture_sections, range.
  replace (Z.to_nat steps) with (n + S (Z.to_nat steps - S n))%nat by lia.
  unfold bind at 1. rewrite (for_loop_from _ _ _ _ _ _ Hat).
  cbn [seq map for_loop]. rewrite (bind_raise _ _ _ _ _ Hb). reflexivity.
Qed.

(** X4. If an iteration of the scroll loop raises after [n] sections
    have been captured, the sections are dropped: the scroll-and-stitch
    path raises the same exception and the caller of the method
    receives [None], never a composite of the sections captured so
    far. *)
Theorem failure_in_loop_discards_sections {W} (drv : Driver W) vw vh total
    out max_scroll w w1 (n : nat) vars wn e w' :
  vh <> 0 ->
  set_window_size drv vw vh w = (inr tt, w1) ->
  at_iteration drv vh (sleep drv 1 w1) n vars wn ->
  Z.of_nat n < planned_scroll_steps total vh max_scroll ->
  loop_body drv vh (Z.of_nat n) vars wn = (inl e, w') ->
  length (screenshots vars) = n
  /\ scroll_and_stitch drv vw vh total out max_scroll w = (inl e, w')
  /\ seen_by_caller (scroll_and_stitch drv vw vh total out max_scroll w)
     = (None, w').
Proof.
  intros Hvh Hset Hat Hn Hb.
  assert (Hc : capture_sections drv vh
                 (planned_scroll_steps total vh max_scroll) (sleep drv 1 w1)
               = (inl e, w')).
  { apply (capture_sections_raises drv vh _ n vars wn _ e w' Hat); [lia |].
    exact Hb. }
  assert (Hs : scroll_and_stitch drv vw vh total out max_scroll w
               = (inl e, w')).
  { unfold scroll_and_stitch. rewrite (bind_run _ _ _ _ _ Hset).
    unfold effect at 1, bind at 1. unfold floordiv.
    destruct (Z.eqb_spec vh 0) as [-> | _]; [lia |].
    unfold ret at 1, bind at 1.
    fold (planned_scroll_steps total vh max_scroll).
    rewrite (bind_raise _ _ _ _ _ Hc). reflexivity. }
  split; [apply (at_iteration_length _ _ _ _ _ _ Hat) | split; [exact Hs |]].
  rewrite Hs. reflexivity.
Qed.

Lemma failure_in_loop_discards_sections_witness :
  fst (capture_full_page_screenshot (Faulty.lost_at 1600)
         "http://example.com" None None
         (Mock.page 1920 800 2400 true false)) = None
  /\ exists vars wn w',
       at_iteration (Faulty.lost_at 1600) 800
         (Mock.page 1920 800 2400 true false) 2 vars wn
       /\ length (screenshots vars) = 2%nat
       /\ seen_by_caller
            (scroll_and_stitch (Faulty.lost_at 1600) 1920 800 2400 None None
               (Mock.page 1920 800 2400 true false)) = (None, w').
Proof.
  split; [reflexivity |].
  edestruct (failure_in_loop_discards_sections (Faulty.lost_at 1600)
               1920 800 2400 None None
               (Mock.page 1920 800 2400 true false)
               (Mock.page 1920 800 2400 true false) 2)
    as (Hlen & _ & Hseen).
  - lia.
  - reflexivity.
  - econstructor; [econstructor; [constructor | reflexivity] | reflexivity].
  - vm_compute. reflexivity.
  - reflexivity.
  - eexists _, _, _. split; [| split; [exact Hlen | exact Hseen]].
    econstructor; [econstructor; [constructor | reflexivity] | reflexivity].
Defined.



(** ** The fallback of [main] *)

Lemma capture_screenshot_works {W} (drv : Driver W) url w :
  viewport_capture_works drv ->
  exists img w', capture_screenshot drv url None w = (Some img, w').
Proof.
  intros Hok. unfold capture_screenshot, capture_screenshot_body.
  destruct (page_loads drv Hok url w) as (w1 & H1).
  rewrite (bind_run _ _ _ _ _ H1). unfold effect at 1, bind at 1.
  destruct (width_read drv Hok (sleep drv 3 w1)) as (vw & w2 & H2).
  rewrite (bind_run _ _ _ _ _ H2).
  destruct (height_read drv Hok w2) as (vh & w3 & H3).
  rewrite (bind_run _ _ _ _ _ H3).
  destruct (window_set drv Hok vw vh w3) as (w4 & H4).
  rewrite (bind_run _ _ _ _ _ H4).
  destruct (viewport_shot drv Hok w4) as (data & img & w5 & H5 & H6).
  rewrite (bind_run _ _ _ _ _ H5). unfold lift at 1, bind at 1. rewrite H6.
  exists img, w5. reflexivity.
Qed.

(** X6. On a session where the plain viewport capture works, [main]
    always obtains a screenshot: whatever becomes of the full-page
    capture (no native capture, a corrupt native image, a failing
    scroll), the standard capture takes over when it returned [None].
    And when the full-page capture did return an image, that image is
    the result and the standard capture is not run. *)
Theorem capture_page_falls_back {W} (drv : Driver W) full url max_scroll w :
  viewport_capture_works drv ->
  (exists img w', capture_page drv full url max_scroll w = (Some img, w'))
  /\ (forall img w',
        capture_full_page_screenshot drv url None (Some max_scroll) w
        = (Some img, w') ->
        capture_page drv true url max_scroll w = (Some img, w'))
  /\ (forall w',
        capture_full_page_screenshot drv url None (Some max_scroll) w
        = (None, w') ->
        capture_page drv true url max_scroll w
        = capture_screenshot drv url None w').
Proof.
  intros Hok. split; [| split].
  - unfold capture_page. destruct full.
    + destruct (capture_full_page_screenshot drv url None (Some max_scroll) w)
        as [[img |] w1].
      * exists img, w1. reflexivity.
      * apply capture_screenshot_works. exact Hok.
    + apply capture_screenshot_works. exact Hok.
  - intros img w' H. unfold capture_page. rewrite H. reflexivity.
  - intros w' H. unfold capture_page. rewrite H. reflexivity.
Qed.

Lemma corrupt_native_viewport_works :
  viewport_capture_works Faulty.corrupt_native.
Proof.
  split.
  - intros url w. eexists. reflexivity.
  - intros w. eexists _, _. reflexivity.
  - intros w. eexists _, _. reflexivity.
  - intros a b w. eexists. reflexivity.
  - intros w. eexists _, _, _. split; reflexivity.
Qed.

Lemma capture_page_falls_back_witness :
  fst (capture_full_page_screenshot Faulty.corrupt_native
         "http://example.com" None (Some 10)
         (Mock.page 1920 800 2400 true false)) = None
  /\ exists img w',
       capture_page Faulty.corrupt_native true "http://example.com" 10
         (Mock.page 1920 800 2400 true false) = (Some img, w').
Proof.
  split; [reflexivity |].
  destruct (capture_page_falls_back Faulty.corrupt_native true
              "http://example.com" 10 (Mock.page 1920 800 2400 true false)
              corrupt_native_viewport_works) as [Hsome _].
  exact Hsome.
Defined.

(** ** How many sections a fixed page gives *)

Lemma ceil_div_bounds total vh :
  0 < vh ->
  (ceil_div total vh - 1) * vh < total <= ceil_div total vh * vh.
Proof.
  intros Hvh. unfold ceil_div.
  pose proof (Z.mul_div_le (- total) vh Hvh).
  pose proof (Z.mul_succ_div_gt (- total) vh Hvh).
  lia.
Qed.

Lemma ceil_div_le_planned total vh :
  0 < vh -> ceil_div total vh <= total / vh + 1.
Proof.
  intros Hvh. pose proof (ceil_div_bounds total vh Hvh) as [Hlo _].
  assert (ceil_div total vh - 1 <= total / vh); [| lia].
  apply Z.div_le_lower_bound; lia.
Qed.

(** If the positions read back differ from one iteration to the next
    up to iteration [n - 1] and iteration [n] reads the position of
    iteration [n - 1] again, the loop captures [n] sections, or as many
    as it has iterations if those are fewer. *)
Lemma captured_from_until (achieved : Z -> Z) vh (n : nat) :
  (1 <= n)%nat ->
  (forall j : nat, (1 <= j < n)%nat ->
     achieved (Z.of_nat j * vh) <> achieved ((Z.of_nat j - 1) * vh)) ->
  achieved (Z.of_nat n * vh) = achieved ((Z.of_nat n - 1) * vh) ->
  forall remaining i,
    (i <= n)%nat ->
    captured_from achieved vh i remaining = Nat.min (i + remaining) n.
Proof.
  intros Hn Hdiff Hsame. induction remaining as [| r IH]; intros i Hi.
  - cbn. lia.
  - cbn [captured_from].
    destruct (Nat.eq_dec i n) as [-> | Hne].
    + replace (0 <? Z.of_nat n) with true by lia.
      rewrite Hsame, Z.eqb_refl. cbn [andb]. lia.
    + replace ((0 <? Z.of_nat i)
               && (achieved (Z.of_nat i * vh)
                   =? achieved ((Z.of_nat i - 1) * vh))) with false.
      * rewrite IH by lia. lia.
      * symmetry. apply andb_false_iff.
        destruct i as [| i']; [left; reflexivity | right].
        apply Z.eqb_neq. apply Hdiff. lia.
Qed.

Lemma captured_count_static total vh steps :
  0 < vh -> 0 < total -> 0 <= steps ->
  Z.of_nat (captured_count (stop_at_bottom total vh) vh steps)
  = Z.min steps (ceil_div total vh).
Proof.
  intros Hvh Ht Hs.
  pose proof (ceil_div_bounds total vh Hvh) as [Hlo Hhi].
  assert (Hc : 1 <= ceil_div total vh) by nia.
  unfold captured_count.
  rewrite (captured_from_until (stop_at_bottom total vh) vh
             (Z.to_nat (ceil_div total vh))).
  - lia.
  - lia.
  - intros j Hj. unfold stop_at_bottom. nia.
  - unfold stop_at_bottom. rewrite Z2Nat.id by lia. nia.
  - lia.
Qed.

(** X7. On a session that answers and whose position stops at the
    bottom of a document of positive height, the loop captures
    [min(scroll_steps, ceil(total_height / viewport_height))] sections.
    Without a cap (or with [max_scroll = 0]) that is the ceiling
    itself, and the composite is exactly as tall as the document; with
    a cap [m >= 1] it is [min(m, ceiling)]. *)
Theorem static_page_sections {W} (drv : Driver W) good vw vh total out
    max_scroll w w1 :
  0 < vh -> 0 < total ->
  (forall m, max_scroll = Some m -> 0 <= m) ->
  responsive drv good (stop_at_bottom total vh) ->
  set_window_size drv vw vh w = (inr tt, w1) ->
  good (sleep drv 1 w1) ->
  (forall img w2, exists w3,
     save_if_requested drv out img w2 = (inr tt, w3)) ->
  exists sections w2 img w',
    capture_sections drv vh (planned_scroll_steps total vh max_scroll)
      (sleep drv 1 w1) = (inr sections, w2)
    /\ scroll_and_stitch drv vw vh total out max_scroll w
       = (inr (Some img), w')
    /\ Z.of_nat (length sections)
       = Z.min (planned_scroll_steps total vh max_scroll)
           (ceil_div total vh)
    /\ height img = Z.min total (vh * Z.of_nat (length sections))
    /\ (max_scroll = None \/ max_scroll = Some 0 ->
        Z.of_nat (length sections) = ceil_div total vh
        /\ height img = total)
    /\ (forall m, max_scroll = Some m -> 0 < m ->
        Z.of_nat (length sections) = Z.min m (ceil_div total vh)).
Proof.
  intros Hvh Ht Hcap Hresp Hset Hgood Hsave.
  pose proof (planned_positive total vh max_scroll Hvh ltac:(lia) Hcap)
    as Hplan.
  pose proof (ceil_div_bounds total vh Hvh) as [Hlo Hhi].
  pose proof (ceil_div_le_planned total vh Hvh) as Hle.
  destruct (responsive_scroll_and_stitch drv good _ Hresp (fun _ => True)
              (fun _ _ _ _ _ _ _ => I) vw vh total out max_scroll w w1)
    as (sections & w2 & img & w' & Hc & Hlen & Hs & Hh & _);
    [lia | lia | lia | exact Hset | exact Hgood | exact Hsave |].
  assert (Hcount : Z.of_nat (length sections)
                   = Z.min (planned_scroll_steps total vh max_scroll)
                       (ceil_div total vh)).
  { rewrite Hlen. apply captured_count_static; lia. }
  exists sections, w2, img, w'.
  split; [exact Hc | split; [exact Hs | split; [exact Hcount |]]].
  split; [exact Hh | split].
  - intros Hnone. rewrite Hh, Hcount.
    assert (planned_scroll_steps total vh max_scroll = total / vh + 1)
      as -> by (destruct Hnone as [-> | ->]; reflexivity).
    split; nia.
  - intros m -> Hm. rewrite Hcount.
    unfold planned_scroll_steps, limit_scroll_steps, truthy_int.
    destruct (Z.eqb_spec m 0); [lia |]. cbn [negb andb].
    destruct (Z.gtb_spec (total / vh + 1) m); lia.
Qed.

Lemma static_page_sections_witness :
  exists sections w2 img w',
    capture_sections Mock.driver 800 (planned_scroll_steps 2000 800 None)
      (Mock.page 1920 800 2000 true false) = (inr sections, w2)
    /\ scroll_and_stitch Mock.driver 1920 800 2000 None None
         (Mock.page 1920 800 2000 true false) = (inr (Some img), w')
    /\ Z.of_nat (length sections) = 3
    /\ height img = 2000.
Proof.
  destruct (static_page_sections Mock.driver (Mock.settled 2000 800) 1920 800
              2000 None None (Mock.page 1920 800 2000 true false)
              (Mock.page 1920 800 2000 true false))
    as (sections & w2 & img & w' & Hc & Hs & _ & _ & Hnone & _).
  - lia.
  - lia.
  - intros m Hm. discriminate Hm.
  - apply (mock_settled 2000 800).
  - reflexivity.
  - repeat split.
  - intros img w2. apply mock_saves.
  - destruct (Hnone (or_introl eq_refl)) as [Hn Hh].
    exists sections, w2, img, w'.
    split; [exact Hc | split; [exact Hs | split; [exact Hn | exact Hh]]].
Defined.

(** ** What the composite shows *)

Section WindowFacts.
Context {W : Type} (drv : Driver W).

Lemma loop_body_Next_shot vh i vars w vars' w' :
  loop_body drv vh i vars w = (inr (Next vars'), w') ->
  exists cur w1 data img,
    scroll_and_measure drv (i * vh) w = (inr cur, w1)
    /\ get_screenshot_as_png drv w1 = (inr data, w')
    /\ Image_open drv data = inr img
    /\ screenshots vars' = screenshots vars ++ [img]
    /\ last_height vars' = cur.
Proof.
  unfold loop_body. intros H.
  apply bind_inr in H. destruct H as (cur & w1 & Hm & H).
  destruct ((cur =? last_height vars) && (i >? 0)); [discriminate |].
  apply bind_inr in H. destruct H as (data & w2 & Hs & H).
  apply bind_inr in H. destruct H as (img & w3 & Ho & H).
  unfold lift in Ho. unfold ret in H.
  injection Ho as Ho <-. injection H as <- <-.
  exists cur, w1, data, img. auto.
Qed.

(** The variables the loop ends with are those of some iteration it
    arrived at. *)
Lemma for_loop_reached vh w0 k :
  forall n vars w vars' w',
    at_iteration drv vh w0 n vars w ->
    for_loop drv vh (map Z.of_nat (seq n k)) vars w = (inr vars', w') ->
    exists n' w'', at_iteration drv vh w0 n' vars' w''.
Proof.
  induction k as [| k IH]; intros n vars w vars' w' Hat H.
  - cbn in H. unfold ret in H. injection H as <- _. eauto.
  - cbn [seq map for_loop] in H. apply bind_inr in H.
    destruct H as (r & w1 & Hb & H). destruct r as [vars1 | vars1].
    + apply (IH (S n) vars1 w1 vars' w'); [| exact H].
      econstructor; eassumption.
    + apply loop_body_Break in Hb. destruct Hb as (-> & _).
      unfold ret in H. injection H as <- _. eauto.
Qed.

Lemma capture_sections_reached vh steps w0 sections w' :
  capture_sections drv vh steps w0 = (inr sections, w') ->
  exists n vars w,
    at_iteration drv vh w0 n vars w /\ sections = screenshots vars.
Proof.
  unfold capture_sections, range. intros H. run_inv H.
  injection H as <- _.
  destruct (for_loop_reached vh w0 _ 0%nat _ w0 _ _
              (at_first drv vh w0) Hrun) as (n & w'' & Hat).
  exists n, v, w''. auto.
Qed.

Context (at_pos : W -> Z -> Prop) (achieved : Z -> Z)
  (page : Z -> Z -> color) (view_w view_h : Z).
Hypothesis Hwin : window_on_page drv at_pos achieved page view_w view_h.

(** Section [i] shows the window at the position read back in
    iteration [i]. *)
Lemma window_sections vh w0 o0 n vars w :
  at_pos w0 o0 ->
  at_iteration drv vh w0 n vars w ->
  (exists o, at_pos w o)
  /\ forall (i : nat) img,
       screenshots vars !! i = Some img ->
       shows page view_w view_h (achieved (Z.of_nat i * vh)) img.
Proof.
  intros H0. induction 1 as [| n vars w vars' w' Hat IH Hb].
  - split; [eauto | intros i img Hi; discriminate Hi].
  - destruct IH as [(o & Ho) IH].
    pose proof (at_iteration_length _ _ _ _ _ _ Hat) as Hlen.
    apply loop_body_Next_shot in Hb.
    destruct Hb as (cur & w1 & data & img & Hm & Hs & Hd & Hsh & _).
    destruct (window_moves _ _ _ _ _ _ Hwin (Z.of_nat n * vh) w o Ho)
      as (w1' & Hm' & Ho1).
    rewrite Hm in Hm'. injection Hm' as -> ->.
    destruct (window_shown _ _ _ _ _ _ Hwin w1' _ Ho1)
      as (data' & img' & w2 & Hs' & Hd' & Hshow & Ho2).
    rewrite Hs in Hs'. injection Hs' as -> ->.
    rewrite Hd in Hd'. injection Hd' as ->.
    split; [eauto |].
    intros i im Hi. rewrite Hsh in Hi.
    destruct (decide (i < n)%nat) as [Hlt | Hge].
    + rewrite lookup_app_l in Hi by lia. apply IH. exact Hi.
    + rewrite lookup_app_r in Hi by lia.
      destruct (i - length (screenshots vars))%nat as [| d] eqn:E;
        [| destruct d; discriminate Hi].
      cbn in Hi. injection Hi as <-.
      replace i with n by lia. exact Hshow.
Qed.

Lemma responsive_of_window :
  0 <= view_w ->
  responsive drv (fun w => exists o, at_pos w o) achieved.
Proof.
  intros Hvw. split.
  - intros y w (o & Ho).
    destruct (window_moves _ _ _ _ _ _ Hwin y w o Ho) as (w' & Hm & Ho').
    exists w'. split; [exact Hm | eauto].
  - intros w (o & Ho).
    destruct (window_shown _ _ _ _ _ _ Hwin w o Ho)
      as (data & img & w' & Hs & Hd & (Hw & _) & Ho').
    exists data, img, w'. split; [exact Hs | split; [exact Hd |]].
    split; [lia | eauto].
Qed.
End WindowFacts.

(** Row [y] of the composite of a fixed page shows the page at the
    position reached for the section the row belongs to, plus the
    row's offset inside the section. *)
Lemma static_page_pixels {W} (drv : Driver W) at_pos page vw vh total out
    w w1 o0 :
  0 < vh -> 0 <= vw -> 0 < total ->
  window_on_page drv at_pos (stop_at_bottom total vh) page vw vh ->
  set_window_size drv vw vh w = (inr tt, w1) ->
  at_pos (sleep drv 1 w1) o0 ->
  (forall img w2, exists w3,
     save_if_requested drv out img w2 = (inr tt, w3)) ->
  exists img w',
    scroll_and_stitch drv vw vh total out None w = (inr (Some img), w')
    /\ width img = vw /\ height img = total
    /\ forall x y, 0 <= x < vw -> 0 <= y < total ->
         getpixel img x y
         = page x (stop_at_bottom total vh (y / vh * vh) + y mod vh).
Proof.
  intros Hvh Hvw Ht Hwin Hset Hpos Hsave.
  pose proof (responsive_of_window drv at_pos _ page vw vh Hwin Hvw) as Hresp.
  pose proof (ceil_div_bounds total vh Hvh) as [Hlo Hhi].
  pose proof (ceil_div_le_planned total vh Hvh) as Hle.
  destruct (responsive_scroll_and_stitch drv _ _ Hresp (fun _ => True)
              (fun _ _ _ _ _ _ _ => I) vw vh total out None w w1)
    as (sections & w2 & img & w' & Hc & Hlen & Hs & Hh & Hcomp & _);
    [lia | lia | rewrite planned_without_cap; nia | exact Hset | eauto
    | exact Hsave |].
  assert (Hcount : Z.of_nat (length sections) = ceil_div total vh).
  { rewrite Hlen, captured_count_static, planned_without_cap by
      (try rewrite planned_without_cap; nia). lia. }
  destruct (capture_sections_reached drv vh _ _ _ _ Hc)
    as (n & vars & wn & Hat & ->).
  destruct (window_sections drv at_pos _ page vw vh Hwin vh _ o0 n vars wn
              Hpos Hat) as [_ Hshow].
  destruct Hcomp as (first & rest & canvas & Hsec & Hnew & Himg).
  apply Image_new_inr in Hnew. destruct Hnew as (Hcw & Hch & _ & _ & _).
  assert (Hfh : height canvas = total) by nia.
  assert (Hfirst : width first = vw).
  { destruct (Hshow 0%nat first) as (Hw & _); [rewrite Hsec; reflexivity |].
    exact Hw. }
  exists img, w'. split; [exact Hs |].
  destruct (paste_sections_size vh (height canvas) 0 (screenshots vars)
              canvas) as [Hpw Hph].
  split; [rewrite Himg, Hpw; lia | split; [rewrite Himg, Hph; exact Hfh |]].
  intros x y Hx Hy.
  assert (Hq : 0 <= y / vh < ceil_div total vh).
  { split; [apply Z.div_pos; lia |]. apply Z.div_lt_upper_bound; nia. }
  pose proof (Z.div_mod y vh ltac:(lia)) as Hdm.
  pose proof (Z.mod_pos_bound y vh Hvh) as Hr.
  destruct (lookup_lt_is_Some_2 (screenshots vars) (Z.to_nat (y / vh)))
    as (sec & Hsecl); [lia |].
  destruct (Hshow _ _ Hsecl) as (Hsw & Hsh & Hpix).
  rewrite Z2Nat.id in Hpix by lia.
  rewrite <- (Hpix x (y mod vh)) by lia.
  rewrite Himg.
  replace y with ((0 + Z.of_nat (Z.to_nat (y / vh))) * vh + y mod vh) at 1
    by (rewrite Z2Nat.id by lia; lia).
  apply paste_sections_pixel; try lia; try exact Hsecl.
Qed.

(** The scripted browser shows its page. *)
Lemma mock_byte_round_trip z :
  Mock.Z_of_byte (Mock.byte_of_Z z) = z mod 256.
Proof.
  unfold Mock.Z_of_byte, Mock.byte_of_Z.
  pose proof (Z.mod_pos_bound z 256 ltac:(lia)) as Hb.
  destruct (Byte.of_N (Z.to_N (z mod 256))) as [b |] eqn:E.
  - apply Byte.to_of_N in E. rewrite E. lia.
  - apply Byte.of_N_None_iff in E. lia.
Qed.

Lemma mock_header_round_trip z :
  0 <= z < 65536 ->
  256 * Mock.Z_of_byte (Mock.byte_of_Z (z / 256))
  + Mock.Z_of_byte (Mock.byte_of_Z z) = z.
Proof.
  intros Hz. rewrite !mock_byte_round_trip.
  assert (0 <= z / 256 < 256).
  { split; [apply Z.div_pos; lia | apply Z.div_lt_upper_bound; lia]. }
  rewrite (Z.mod_small (z / 256)) by lia.
  pose proof (Z.div_mod z 256 ltac:(lia)). lia.
Qed.

Lemma mock_window total vw vh :
  window_on_page Mock.driver (mock_at total vw vh) (stop_at_bottom total vh)
    Mock.page_color vw vh.
Proof.
  split.
  - intros y [iw ih dh sy c n sv] o ((Hd & Hi & Hc) & Hw & Hs & Hb).
    cbn in Hd, Hi, Hc, Hw, Hs. subst.
    eexists. split; [reflexivity |].
    unfold mock_at, Mock.settled, stop_at_bottom. cbn.
    repeat split; try reflexivity; lia.
  - intros [iw ih dh sy c n sv] o ((Hd & Hi & Hc) & Hw & Hs & Hb).
    cbn in Hd, Hi, Hc, Hw, Hs. subst.
    eexists _, _, _. split; [reflexivity |]. split; [reflexivity |].
    split; [| unfold mock_at, Mock.settled; cbn;
              repeat split; try reflexivity; lia].
    unfold shows.
    cbn [width height getpixel Mock.inner_w Mock.inner_h Mock.scroll_y].
    rewrite !mock_header_round_trip by lia.
    split; [reflexivity | split; [reflexivity |]].
    intros x y _ _. f_equal. lia.
Qed.

(** X8. On a session that shows a fixed page whose height is a positive
    multiple of the viewport height, the composite returned without a
    cap reproduces the page pixel for pixel. *)
Theorem multiple_page_reproduced {W} (drv : Driver W) at_pos page vw vh
    total out w w1 o0 :
  0 < vh -> 0 <= vw -> 0 < total -> total mod vh = 0 ->
  window_on_page drv at_pos (stop_at_bottom total vh) page vw vh ->
  set_window_size drv vw vh w = (inr tt, w1) ->
  at_pos (sleep drv 1 w1) o0 ->
  (forall img w2, exists w3,
     save_if_requested drv out img w2 = (inr tt, w3)) ->
  exists img w',
    scroll_and_stitch drv vw vh total out None w = (inr (Some img), w')
    /\ width img = vw /\ height img = total
    /\ forall x y, 0 <= x < vw -> 0 <= y < total ->
         getpixel img x y = page x y.
Proof.
  intros Hvh Hvw Ht Hmod Hwin Hset Hpos Hsave.
  destruct (static_page_pixels drv at_pos page vw vh total out w w1 o0
              Hvh Hvw Ht Hwin Hset Hpos Hsave)
    as (img & w' & Hs & Hw & Hh & Hpix).
  exists img, w'. split; [exact Hs | split; [exact Hw | split; [exact Hh |]]].
  intros x y Hx Hy. rewrite (Hpix x y Hx Hy). f_equal.
  pose proof (Z.div_mod y vh ltac:(lia)).
  pose proof (Z.mod_pos_bound y vh Hvh).
  pose proof (Z.div_mod total vh ltac:(lia)).
  assert (y / vh < total / vh) by (apply Z.div_lt_upper_bound; lia).
  assert (0 <= y / vh) by (apply Z.div_pos; lia).
  unfold stop_at_bottom. nia.
Qed.

Lemma multiple_page_reproduced_witness :
  exists img w',
    scroll_and_stitch Mock.driver 1920 800 2400 None None
      (Mock.page 1920 800 2400 true false) = (inr (Some img), w')
    /\ getpixel img 5 1700 = Mock.page_color 5 1700.
Proof.
  destruct (multiple_page_reproduced Mock.driver (mock_at 2400 1920 800)
              Mock.page_color 1920 800 2400 None
              (Mock.page 1920 800 2400 true false)
              (Mock.page 1920 800 2400 true false) 0)
    as (img & w' & Hs & _ & _ & Hpix).
  - lia.
  - lia.
  - lia.
  - reflexivity.
  - apply mock_window.
  - reflexivity.
  - unfold mock_at, Mock.settled. cbn. repeat split; try reflexivity; lia.
  - intros img w2. apply mock_saves.
  - exists img, w'. split; [exact Hs | apply Hpix; lia].
Defined.

(** X9. On a session that shows a fixed page taller than the window
    whose height is not a multiple of the viewport height, the rows of
    the composite above the last section show the page as it is, but
    the rows of the last section show the page [viewport_height -
    total_height mod viewport_height] rows higher up: the last
    screenshot is taken at the bottom of the document, pasted one full
    window below the previous one and cut from its top.  The last rows
    of the page do not appear in the composite. *)
Theorem last_section_shifted {W} (drv : Driver W) at_pos page vw vh total
    out w w1 o0 :
  0 < vh -> 0 <= vw -> vh < total -> total mod vh <> 0 ->
  window_on_page drv at_pos (stop_at_bottom total vh) page vw vh ->
  set_window_size drv vw vh w = (inr tt, w1) ->
  at_pos (sleep drv 1 w1) o0 ->
  (forall img w2, exists w3,
     save_if_requested drv out img w2 = (inr tt, w3)) ->
  exists img w',
    scroll_and_stitch drv vw vh total out None w = (inr (Some img), w')
    /\ height img = total
    /\ (forall x y, 0 <= x < vw -> 0 <= y < total / vh * vh ->
          getpixel img x y = page x y)
    /\ (forall x y, 0 <= x < vw -> total / vh * vh <= y < total ->
          getpixel img x y = page x (y - (vh - total mod vh))).
Proof.
  intros Hvh Hvw Ht Hmod Hwin Hset Hpos Hsave.
  destruct (static_page_pixels drv at_pos page vw vh total out w w1 o0
              Hvh Hvw ltac:(lia) Hwin Hset Hpos Hsave)
    as (img & w' & Hs & Hw & Hh & Hpix).
  pose proof (Z.div_mod total vh ltac:(lia)) as Hdm.
  pose proof (Z.mod_pos_bound total vh Hvh) as Hmb.
  assert (Hq : 1 <= total / vh).
  { apply Z.div_le_lower_bound; lia. }
  exists img, w'. split; [exact Hs | split; [exact Hh | split]].
  - intros x y Hx Hy. rewrite (Hpix x y Hx ltac:(nia)). f_equal.
    pose proof (Z.div_mod y vh ltac:(lia)).
    pose proof (Z.mod_pos_bound y vh Hvh).
    assert (y / vh < total / vh) by (apply Z.div_lt_upper_bound; lia).
    assert (0 <= y / vh) by (apply Z.div_pos; lia).
    unfold stop_at_bottom. nia.
  - intros x y Hx Hy. rewrite (Hpix x y Hx ltac:(nia)). f_equal.
    pose proof (Z.div_mod y vh ltac:(lia)).
    pose proof (Z.mod_pos_bound y vh Hvh).
    assert (y / vh = total / vh).
    { apply Z.le_antisymm.
      - apply Z.div_le_mono; lia.
      - apply Z.div_le_lower_bound; lia. }
    unfold stop_at_bottom. nia.
Qed.

Lemma last_section_shifted_witness :
  exists img w',
    scroll_and_stitch Mock.driver 1920 800 2000 None None
      (Mock.page 1920 800 2000 true false) = (inr (Some img), w')
    /\ getpixel img 5 1999 = Mock.page_color 5 1599.
Proof.
  destruct (last_section_shifted Mock.driver (mock_at 2000 1920 800)
              Mock.page_color 1920 800 2000 None
              (Mock.page 1920 800 2000 true false)
              (Mock.page 1920 800 2000 true false) 0)
    as (img & w' & Hs & _ & _ & Hlast).
  - lia.
  - lia.
  - lia.
  - discriminate.
  - apply mock_window.
  - reflexivity.
  - unfold mock_at, Mock.settled. cbn. repeat split; try reflexivity; lia.
  - intros img w2. apply mock_saves.
  - exists img, w'. split; [exact Hs |].
    apply (Hlast 5 1999); [lia | vm_compute; split; [discriminate | reflexivity]].
Defined.

(** * Properties of the DOM extractor *)

Section ExtractorFacts.
Context (BeautifulSoup : string -> exn + Soup) (blank : string -> bool)
  (width_in_style height_in_style url_in_style : string -> option string).

Local Abbreviation info_of :=
  (image_info blank width_in_style height_in_style).
Local Abbreviation background_of := (background_info url_in_style).
Local Abbreviation extracted :=
  (extract_images_info BeautifulSoup blank width_in_style height_in_style
     url_in_style).

Lemma image_info_alt_fields img :
  info_of img !! "has_alt" = Some (PyBool (tag_has img "alt"))
  /\ info_of img !! "empty_alt"
     = Some (PyBool (tag_has img "alt" && blank (tag_get img "alt")))
  /\ info_of img !! "alt" = Some (PyStr (tag_get img "alt")).
Proof.
  unfold image_info, fill_from_style.
  repeat split; repeat case_match; simplify_map_eq; reflexivity.
Qed.

Lemma tag_get_missing img key :
  tag_has img key = false -> tag_get img key = EmptyString.
Proof.
  unfold tag_has, tag_get. destruct (tag_attrs img !! key); [discriminate |].
  reflexivity.
Qed.

Lemma image_info_agrees img : alt_fields_agree blank (info_of img).
Proof.
  destruct (image_info_alt_fields img) as (Hh & He & Ha).
  exists (tag_has img "alt"),
    (tag_has img "alt" && blank (tag_get img "alt")), (tag_get img "alt").
  split; [exact Hh | split; [exact He | split; [exact Ha | split]]].
  - intros H. apply andb_prop in H. exact H.
  - apply tag_get_missing.
Qed.

Lemma background_info_fields element d :
  background_of element = Some d ->
  d !! "has_alt" = Some (PyBool false)
  /\ d !! "empty_alt" = Some (PyBool false)
  /\ d !! "alt" = Some (PyStr EmptyString)
  /\ d !! "is_background" = Some (PyBool true).
Proof.
  unfold background_info. intros H.
  repeat case_match; try discriminate. injection H as <-.
  repeat split; simplify_map_eq; reflexivity.
Qed.

Lemma without_alt_image_info img :
  without_alt (info_of img)
  = negb (tag_has img "alt") || blank (tag_get img "alt").
Proof.
  destruct (image_info_alt_fields img) as (Hh & He & _).
  unfold without_alt, dict_get. rewrite Hh, He. cbn.
  destruct (tag_has img "alt"); reflexivity.
Qed.

Lemma without_alt_background element d :
  background_of element = Some d -> without_alt d = true.
Proof.
  intros H. apply background_info_fields in H. destruct H as (Hh & _).
  unfold without_alt, dict_get. rewrite Hh. reflexivity.
Qed.

(** X10. In every dictionary that [extract_images_info] returns, the
    fields about the alternative text agree: [has_alt], [empty_alt] and
    [alt] are present, [empty_alt] is true only together with [has_alt]
    and a blank [alt], and [alt] is the empty string whenever [has_alt]
    is false.  A background image always has [has_alt] false. *)
Theorem extracted_alt_fields_agree html_content :
  Forall (alt_fields_agree blank) (extracted html_content)
  /\ Forall (fun d =>
       d !! "is_background" = Some (PyBool true) ->
       d !! "has_alt" = Some (PyBool false))
       (extracted html_content).
Proof.
  unfold extract_images_info.
  destruct (BeautifulSoup html_content) as [e | soup];
    [split; constructor |].
  split; apply Forall_app; split.
  - apply Forall_forall. intros d Hd. apply list_elem_of_In in Hd.
    apply in_map_iff in Hd. destruct Hd as (img & <- & _).
    apply image_info_agrees.
  - apply Forall_forall. intros d Hd.
    apply list_elem_of_omap in Hd. destruct Hd as (element & _ & Hd).
    apply background_info_fields in Hd. destruct Hd as (Hh & He & Ha & _).
    exists false, false, EmptyString. repeat split; auto; discriminate.
  - apply Forall_forall. intros d Hd. apply list_elem_of_In in Hd.
    apply in_map_iff in Hd. destruct Hd as (img & <- & _).
    unfold image_info, fill_from_style.
    intros H. repeat case_match; simplify_map_eq.
  - apply Forall_forall. intros d Hd.
    apply list_elem_of_omap in Hd. destruct Hd as (element & _ & Hd).
    apply background_info_fields in Hd. destruct Hd as (Hh & _).
    intros _. exact Hh.
Qed.

Lemma match_image_app region l1 l2 vw vh :
  match_image_with_dom region (l1 ++ l2) vw vh
  = match match_image_with_dom region l1 vw vh with
    | Some d => Some d
    | None => match_image_with_dom region l2 vw vh
    end.
Proof.
  induction l1 as [| d l1 IH]; [reflexivity |].
  cbn [app match_image_with_dom]. destruct (without_alt d); [reflexivity |].
  exact IH.
Qed.

Lemma match_image_of_images region imgs vw vh :
  match_image_with_dom region (map info_of imgs) vw vh
  = option_map info_of
      (List.find
         (fun img => negb (tag_has img "alt") || blank (tag_get img "alt"))
         imgs).
Proof.
  induction imgs as [| img imgs IH]; [reflexivity |].
  cbn [map match_image_with_dom List.find].
  rewrite without_alt_image_info.
  destruct (negb (tag_has img "alt") || blank (tag_get img "alt"));
    [reflexivity | exact IH].
Qed.

Lemma match_image_of_backgrounds region elements vw vh :
  match_image_with_dom region (omap background_of elements) vw vh
  = head (omap background_of elements).
Proof.
  induction elements as [| element elements IH]; [reflexivity |].
  cbn [omap list_omap]. destruct (background_of element) as [d |] eqn:E.
  - cbn [match_image_with_dom head].
    rewrite (without_alt_background element d E). reflexivity.
  - exact IH.
Qed.

(** X11. Applied to what [extract_images_info] returns,
    [match_image_with_dom] yields the entry of the first [img] of the
    document that has no [alt] attribute or a blank one; if every [img]
    has a text, the first element with a background image; and [None]
    only if there is neither.  An undescribed [img] wins over a
    background image wherever the two stand in the document. *)
Theorem match_after_extract region html_content vw vh :
  match_image_with_dom region (extracted html_content) vw vh
  = match BeautifulSoup html_content with
    | inr soup =>
        match first_undescribed blank soup with
        | Some img => Some (info_of img)
        | None => head (omap background_of (find_all_containers soup))
        end
    | inl _ => None
    end.
Proof.
  unfold extract_images_info, first_undescribed.
  destruct (BeautifulSoup html_content) as [e | soup]; [reflexivity |].
  rewrite match_image_app, match_image_of_images,
    match_image_of_backgrounds.
  destruct (List.find _ (find_all_img soup)); reflexivity.
Qed.
End ExtractorFacts.

Section InteractiveFacts.
Context (BeautifulSoup : string -> exn + Soup).

Local Abbreviation interactive :=
  (extract_interactive_elements BeautifulSoup).

Lemma control_info_input button d :
  control_info button = Some d ->
  d !! "element" = Some (PyStr "input") ->
  exists value,
    tag_attrs button !! "type" = Some value
    /\ d !! "type" = Some (PyStr value)
    /\ is_button_type value = true.
Proof.
  unfold control_info. intros H Helem.
  destruct (String.eqb (tag_name button) "input") eqn:En.
  - destruct (tag_attrs button !! "type") as [value |] eqn:Et;
      cbn [negb andb] in H; [| discriminate].
    destruct (is_button_type value) eqn:Eb; cbn [negb] in H; [| discriminate].
    injection H as <-. exists value.
    split; [reflexivity | split; [| exact Eb]].
    unfold tag_get. rewrite Et. simplify_map_eq. reflexivity.
  - cbn [andb] in H. injection H as <-.
    apply String.eqb_neq in En. simplify_map_eq.
Qed.

(** X12. An [input] is listed among the interactive elements only with a
    [type] attribute equal to [button], [submit], [reset] or [image];
    text fields, check boxes and inputs without a type never appear.
    Every link and every [button] of the document is listed. *)
Theorem interactive_inputs_are_buttons html_content :
  Forall (fun d =>
    d !! "element" = Some (PyStr "input") ->
    exists value,
      d !! "type" = Some (PyStr value) /\ is_button_type value = true)
    (interactive html_content)
  /\ forall soup,
       BeautifulSoup html_content = inr soup ->
       (forall link, link ∈ find_all_a soup ->
          link_info link ∈ interactive html_content)
       /\ (forall button, button ∈ find_all_controls soup ->
             tag_name button <> "input" ->
             exists d, control_info button = Some d
                       /\ d ∈ interactive html_content).
Proof.
  unfold extract_interactive_elements.
  destruct (BeautifulSoup html_content) as [e | soup].
  - split; [constructor | intros soup H; discriminate H].
  - split.
    + apply Forall_app. split; apply Forall_forall; intros d Hd.
      * apply list_elem_of_fmap in Hd. destruct Hd as (link & -> & _).
        intros H. unfold link_info in H. simplify_map_eq.
      * apply list_elem_of_omap in Hd. destruct Hd as (button & _ & Hd).
        intros H. destruct (control_info_input button d Hd H)
          as (value & _ & Ht & Hb).
        exists value. split; assumption.
    + intros soup' [= <-]. split.
      * intros link Hl. apply elem_of_app. left.
        apply list_elem_of_fmap. exists link. split; [reflexivity | exact Hl].
      * intros button Hb Hn. apply String.eqb_neq in Hn.
        unfold control_info at 1. rewrite Hn. cbn [andb].
        eexists. split; [reflexivity |].
        apply elem_of_app. right. apply list_elem_of_omap.
        exists button. split; [exact Hb |].
        unfold control_info. rewrite Hn. reflexivity.
Qed.
End InteractiveFacts.

(** The sample document: the blank [alt] of the second image is found,
    and of the four controls the text input and the input without a
    type are left out. *)
Example sample_page_match :
  option_map (fun d => d !! "src")
    (match_image_with_dom (10, 20, 300, 40)
       (extract_images_info SamplePage.parse SamplePage.blank
          SamplePage.no_size SamplePage.no_size SamplePage.url "<html>")
       1920 1080)
  = Some (Some (PyStr "line.png")).
Proof. vm_compute. reflexivity. Qed.

Example sample_page_interactive :
  map (fun d => d !! "element")
    (extract_interactive_elements SamplePage.parse "<html>")
  = [Some (PyStr "a"); Some (PyStr "button"); Some (PyStr "input")].
Proof. vm_compute. reflexivity. Qed.

(** * Properties of the text detector and of the text issues *)

Lemma fold_min_whole {A : Type} (less : A -> A -> bool) (val : A -> Z) :
  (forall a b, less a b = (val a <? val b)) ->
  forall values first,
    let smallest :=
      fold_left (fun kept item => if less item kept then item else kept)
        values first in
    val smallest <= val first
    /\ forall v, In v values -> val smallest <= val v.
Proof.
  intros Hless. induction values as [| x rest IH]; intros first;
    cbn [fold_left].
  - split; [lia | intros v []].
  - destruct (IH (if less x first then x else first)) as [H1 H2].
    assert (Hk : val (if less x first then x else first) <= val first
                 /\ val (if less x first then x else first) <= val x).
    { rewrite Hless. destruct (Z.ltb_spec (val x) (val first)); lia. }
    split; [lia |].
    intros v [<- | Hv]; [lia | apply H2; exact Hv].
Qed.

Lemma fold_max_whole {A : Type} (less : A -> A -> bool) (val : A -> Z) :
  (forall a b, less a b = (val a <? val b)) ->
  forall values first,
    let greatest :=
      fold_left (fun kept item => if less kept item then item else kept)
        values first in
    val first <= val greatest
    /\ forall v, In v values -> val v <= val greatest.
Proof.
  intros Hless. induction values as [| x rest IH]; intros first;
    cbn [fold_left].
  - split; [lia | intros v []].
  - destruct (IH (if less first x then x else first)) as [H1 H2].
    assert (Hk : val first <= val (if less first x then x else first)
                 /\ val x <= val (if less first x then x else first)).
    { rewrite Hless. destruct (Z.ltb_spec (val first) (val x)); lia. }
    split; [lia |].
    intros v [<- | Hv]; [lia | apply H2; exact Hv].
Qed.

Lemma py_min_le {A : Type} (less : A -> A -> bool) (val : A -> Z) values m v :
  (forall a b, less a b = (val a <? val b)) ->
  py_min less values = inr m -> In v values -> val m <= val v.
Proof.
  intros Hless. destruct values as [| first rest]; [discriminate |].
  destruct (fold_min_whole less val Hless rest first) as [H1 H2].
  intros [= <-] [<- | Hv]; [exact H1 | exact (H2 v Hv)].
Qed.

Lemma py_max_ge {A : Type} (less : A -> A -> bool) (val : A -> Z) values m v :
  (forall a b, less a b = (val a <? val b)) ->
  py_max less values = inr m -> In v values -> val v <= val m.
Proof.
  intros Hless. destruct values as [| first rest]; [discriminate |].
  destruct (fold_max_whole less val Hless rest first) as [H1 H2].
  intros [= <-] [<- | Hv]; [exact H1 | exact (H2 v Hv)].
Qed.

(** The result of [min] or [max] is one of the items. *)
Lemma fold_choice_In {A : Type} (choose : A -> A -> bool) (values : list A) :
  forall first,
    In (fold_left (fun kept item => if choose kept item then item else kept)
          values first)
       (first :: values).
Proof.
  induction values as [| x rest IH]; intros first; cbn [fold_left].
  - left. reflexivity.
  - destruct (IH (if choose first x then x else first)) as [H | H].
    + destruct (choose first x); [right; left | left]; exact H.
    + right. right. exact H.
Qed.

Lemma py_min_In {A : Type} (less : A -> A -> bool) values m :
  py_min less values = inr m -> In m values.
Proof.
  destruct values as [| first rest]; [discriminate |]. intros [= <-].
  apply (fold_choice_In (fun kept item => less item kept)).
Qed.

Lemma py_max_In {A : Type} (less : A -> A -> bool) values m :
  py_max less values = inr m -> In m values.
Proof.
  destruct values as [| first rest]; [discriminate |]. intros [= <-].
  apply (fold_choice_In less).
Qed.

Section TextFacts.
Context (F : Type) (zero one : F) (below_03 below_06 above_02 : F -> bool)
  (similarity : string -> string -> F) (blank : string -> bool)
  (number : Type) (less : number -> number -> bool)
  (minus : number -> number -> number) (int : number -> exn + Z)
  (readtext : Image -> exn + list (list (number * number) * string * F)).

Local Abbreviation detect :=
  (detect_text_in_image F above_02 blank number less minus int readtext).
Local Abbreviation evaluate :=
  (evaluate_alt_text F zero one below_03 below_06 similarity blank).
Local Abbreviation whole := (whole_numbers number less minus int).

Lemma detection_of_kept bbox text confidence t :
  detection_of F above_02 blank number less minus int
    (bbox, text, confidence) = inr (Some t) ->
  det_detected_text F t = text /\ det_confidence F t = confidence
  /\ above_02 confidence = true /\ blank text = false
  /\ det_has_alt_text F t = PyBool false
  /\ det_alt_text_quality F t = None
  /\ exists x_min y_min x_max y_max x y w h,
       py_min less (map fst bbox) = inr x_min
       /\ py_min less (map snd bbox) = inr y_min
       /\ py_max less (map fst bbox) = inr x_max
       /\ py_max less (map snd bbox) = inr y_max
       /\ int x_min = inr x /\ int y_min = inr y
       /\ int (minus x_max x_min) = inr w
       /\ int (minus y_max y_min) = inr h
       /\ det_region F t = (x, y, w, h).
Proof.
  unfold detection_of.
  destruct (py_min less (map fst bbox)) as [e | x_min]; [discriminate |].
  destruct (py_min less (map snd bbox)) as [e | y_min]; [discriminate |].
  destruct (py_max less (map fst bbox)) as [e | x_max]; [discriminate |].
  destruct (py_max less (map snd bbox)) as [e | y_max]; [discriminate |].
  destruct (above_02 confidence) eqn:Ec; cbn [andb]; [| discriminate].
  destruct (blank text) eqn:Eb; cbn [negb]; [discriminate |].
  destruct (int x_min) as [e | x] eqn:Ex; [discriminate |].
  destruct (int y_min) as [e | y] eqn:Ey; [discriminate |].
  destruct (int (minus x_max x_min)) as [e | w] eqn:Ew; [discriminate |].
  destruct (int (minus y_max y_min)) as [e | h] eqn:Eh; [discriminate |].
  intros [= <-]. cbn. repeat split.
  exists x_min, y_min, x_max, y_max, x, y, w, h. repeat split; assumption.
Qed.

(** With whole coordinates the region is the bounding box. *)
Lemma whole_region_encloses val bbox x_min y_min x_max y_max x y w h :
  whole val ->
  py_min less (map fst bbox) = inr x_min ->
  py_min less (map snd bbox) = inr y_min ->
  py_max less (map fst bbox) = inr x_max ->
  py_max less (map snd bbox) = inr y_max ->
  int x_min = inr x -> int y_min = inr y ->
  int (minus x_max x_min) = inr w ->
  int (minus y_max y_min) = inr h ->
  0 <= w /\ 0 <= h
  /\ forall p, In p bbox ->
       x <= val (fst p) <= x + w /\ y <= val (snd p) <= y + h.
Proof.
  intros [Hless Hminus Hint] Ex Ey EX EY Hx Hy Hw Hh.
  rewrite Hint in Hx, Hy, Hw, Hh.
  injection Hx as <-. injection Hy as <-.
  injection Hw as <-. injection Hh as <-. rewrite !Hminus.
  assert (Hin : forall p, In p bbox ->
            val x_min <= val (fst p) <= val x_max
            /\ val y_min <= val (snd p) <= val y_max).
  { intros p Hp. repeat split.
    - apply (py_min_le less val _ _ _ Hless Ex). apply in_map. exact Hp.
    - apply (py_max_ge less val _ _ _ Hless EX). apply in_map. exact Hp.
    - apply (py_min_le less val _ _ _ Hless Ey). apply in_map. exact Hp.
    - apply (py_max_ge less val _ _ _ Hless EY). apply in_map. exact Hp. }
  destruct bbox as [| p0 rest]; [discriminate Ex |].
  pose proof (Hin p0 (or_introl eq_refl)) as H0.
  split; [lia | split; [lia |]].
  intros p Hp. specialize (Hin p Hp). lia.
Qed.

Lemma detections_of_origin raw_results :
  forall detections t,
    detections_of F above_02 blank number less minus int raw_results
    = inr detections ->
    In t detections ->
    exists bbox text confidence,
      In (bbox, text, confidence) raw_results
      /\ detection_of F above_02 blank number less minus int
           (bbox, text, confidence)
         = inr (Some t).
Proof.
  induction raw_results as [| [[bbox text] confidence] rest IH];
    intros detections t H Ht.
  - cbn in H. injection H as <-. destruct Ht.
  - cbn [detections_of] in H.
    destruct (detection_of F above_02 blank number less minus int
                (bbox, text, confidence))
      as [e | kept] eqn:E; [discriminate |].
    destruct (detections_of F above_02 blank number less minus int rest)
      as [e | ds] eqn:Er; [discriminate |].
    injection H as <-.
    assert (Hcase : kept = Some t \/ In t ds).
    { destruct kept as [d |]; [destruct Ht as [-> | Ht]; auto | auto]. }
    destruct Hcase as [-> | Hin].
    + exists bbox, text, confidence. split; [left; reflexivity | exact E].
    + destruct (IH ds t eq_refl Hin) as (b & tx & c & Hb & Hd).
      exists b, tx, c. split; [right; exact Hb | exact Hd].
Qed.

(** X13. Every detection that [detect_text_in_image] returns comes from
    a result of the reader with a confidence above 0.2 and a text that
    is not blank, and it starts with [has_alt_text] false and no
    quality.  Its region is [(int(x_min), int(y_min), int(x_max -
    x_min), int(y_max - y_min))] for the extreme coordinates of the
    reader's box, each of them a coordinate of one of its corners.
    When the coordinates are whole numbers, the region has a width and
    a height that are not negative and encloses every corner of the
    box.  (For fractions, which [int] cuts off, it need not.) *)
Theorem detections_enclose_their_boxes image t :
  In t (detect image) ->
  exists raw_results bbox,
    readtext image = inr raw_results
    /\ In (bbox, det_detected_text F t, det_confidence F t) raw_results
    /\ above_02 (det_confidence F t) = true
    /\ blank (det_detected_text F t) = false
    /\ det_has_alt_text F t = PyBool false
    /\ det_alt_text_quality F t = None
    /\ (exists x_min y_min x_max y_max x y w h,
          In x_min (map fst bbox) /\ In y_min (map snd bbox)
          /\ In x_max (map fst bbox) /\ In y_max (map snd bbox)
          /\ int x_min = inr x /\ int y_min = inr y
          /\ int (minus x_max x_min) = inr w
          /\ int (minus y_max y_min) = inr h
          /\ det_region F t = (x, y, w, h))
    /\ forall val,
         whole val ->
         exists x y w h,
           det_region F t = (x, y, w, h)
           /\ 0 <= w /\ 0 <= h
           /\ forall p, In p bbox ->
                x <= val (fst p) <= x + w /\ y <= val (snd p) <= y + h.
Proof.
  unfold detect_text_in_image.
  destruct (readtext image) as [e | raw_results]; [intros [] |].
  destruct (detections_of F above_02 blank number less minus int raw_results)
    as [e | detections] eqn:E; [intros [] |].
  intros Ht.
  destruct (detections_of_origin raw_results detections t E Ht)
    as (bbox & text & confidence & Hin & Hd).
  apply detection_of_kept in Hd.
  destruct Hd as (<- & <- & Hc & Hb & Hh & Hq & x_min & y_min & x_max & y_max
                  & x & y & w & h & Ex & Ey & EX & EY & Hx & Hy & Hw & Hhh
                  & Hr).
  exists raw_results, bbox.
  split; [reflexivity | split; [exact Hin | split; [exact Hc |]]].
  split; [exact Hb | split; [exact Hh | split; [exact Hq |]]].
  split.
  - exists x_min, y_min, x_max, y_max, x, y, w, h.
    split; [exact (py_min_In less _ _ Ex) |].
    split; [exact (py_min_In less _ _ Ey) |].
    split; [exact (py_max_In less _ _ EX) |].
    split; [exact (py_max_In less _ _ EY) |].
    auto 6.
  - intros val Hval. exists x, y, w, h. split; [exact Hr |].
    exact (whole_region_encloses val bbox x_min y_min x_max y_max x y w h
             Hval Ex Ey EX EY Hx Hy Hw Hhh).
Qed.

(** X14. [evaluate_alt_text] reports the quality [Missing] exactly when
    there is no alternative text (it is [None], false, empty or blank),
    and exactly then [has_alt_text] is false; otherwise the quality is
    [Poor], [Average] or [Good].  With a text to evaluate and an empty
    or blank detected text the result is [Good] with score 1.0, without
    any comparison.  It raises only for an alternative text that is the
    boolean [True]. *)
Theorem alt_text_quality_classes detected_text alt_text :
  (forall e,
     evaluate detected_text alt_text = inr e ->
     let absent :=
       match alt_text with
       | None | Some (PyBool false) => true
       | Some (PyBool true) => false
       | Some (PyStr alt) => String.eqb alt EmptyString || blank alt
       end in
     (ev_quality F e = "Missing" <-> absent = true)
     /\ ev_has_alt_text F e = negb absent
     /\ (absent = false ->
         ev_quality F e = "Poor" \/ ev_quality F e = "Average"
         \/ ev_quality F e = "Good")
     /\ (absent = false ->
         String.eqb detected_text EmptyString || blank detected_text = true ->
         ev_quality F e = "Good" /\ ev_similarity_score F e = one))
  /\ ((exists err, evaluate detected_text alt_text = inl err)
      <-> alt_text = Some (PyBool true)).
Proof.
  clear above_02 readtext int minus less. split.
  - intros e He absent. subst absent. unfold evaluate_alt_text in He.
    destruct alt_text as [[[] | alt] |].
    + discriminate He.
    + injection He as <-. cbn. intuition discriminate.
    + destruct (String.eqb alt EmptyString || blank alt).
      * injection He as <-. cbn. intuition discriminate.
      * destruct (String.eqb detected_text EmptyString
                  || blank detected_text).
        { injection He as <-. cbn. intuition discriminate. }
        destruct (below_03 (similarity detected_text alt));
          [| destruct (below_06 (similarity detected_text alt))];
          injection He as <-; cbn; intuition discriminate.
    + injection He as <-. cbn. intuition discriminate.
  - unfold evaluate_alt_text. split.
    + intros (err & He). destruct alt_text as [[[] | alt] |];
        try discriminate He; [reflexivity |].
      repeat case_match; discriminate He.
    + intros ->. exists AttributeError. reflexivity.
Qed.
End TextFacts.

Section MainFacts.
Context (F : Type) (zero one : F) (below_03 below_06 above_02 : F -> bool)
  (similarity : string -> string -> F) (blank : string -> bool)
  (number : Type) (less : number -> number -> bool)
  (minus : number -> number -> number) (int : number -> exn + Z)
  (readtext : Image -> exn + list (list (number * number) * string * F))
  (BeautifulSoup : string -> exn + Soup)
  (width_in_style height_in_style url_in_style : string -> option string).

Local Abbreviation detect :=
  (detect_text_in_image F above_02 blank number less minus int readtext).
Local Abbreviation evaluate :=
  (evaluate_alt_text F zero one below_03 below_06 similarity blank).
Local Abbreviation link :=
  (link_with_dom F zero one below_03 below_06 similarity blank).
Local Abbreviation link_list :=
  (link_all F zero one below_03 below_06 similarity blank).
Local Abbreviation issues_of_main :=
  (text_issues_of_main F zero one below_03 below_06 above_02 similarity blank
     number less minus int readtext).
Local Abbreviation analyze :=
  (analyze_image_with_alt F zero one below_03 below_06 above_02 similarity
     blank number less minus int readtext).
Local Abbreviation extracted :=
  (extract_images_info BeautifulSoup blank width_in_style height_in_style
     url_in_style).

Lemma detect_fresh image :
  Forall (fun t => det_has_alt_text F t = PyBool false
                   /\ det_alt_text_quality F t = None)
    (detect image).
Proof.
  apply List.Forall_forall. intros t Ht. unfold detect_text_in_image in Ht.
  destruct (readtext image) as [e | raw_results]; [destruct Ht |].
  destruct (detections_of F above_02 blank number less minus int raw_results)
    as [e | detections] eqn:E; [destruct Ht |].
  destruct (detections_of_origin F above_02 blank number less minus int
              raw_results detections t E Ht)
    as (bbox & text & confidence & _ & Hd).
  apply detection_of_kept in Hd.
  destruct Hd as (_ & _ & _ & _ & Hh & Hq & _). auto.
Qed.

(** An image picked by [match_image_with_dom] whose fields agree has no
    alternative text to evaluate. *)
Lemma picked_image_is_missing dom_images region vw vh d detected_text :
  Forall (alt_fields_agree blank) dom_images ->
  match_image_with_dom region dom_images vw vh = Some d ->
  evaluate detected_text (Some (dict_get d "alt" (PyStr "")))
  = inr (missing_alt F zero).
Proof.
  intros Hall Hm. apply match_image_Some in Hm.
  destruct Hm as (pre & post & -> & _ & Hw).
  apply Forall_app in Hall. destruct Hall as [_ Hall].
  apply Forall_cons in Hall. destruct Hall as [(h & e & a & Hh & He & Ha & Hempty & Hnone) _].
  unfold without_alt, dict_get in Hw. rewrite Hh, He in Hw. cbn in Hw.
  assert (Hc : String.eqb a EmptyString || blank a = true).
  { apply orb_true_iff. destruct h; cbn in Hw.
    - right. apply Hempty. exact Hw.
    - left. rewrite (Hnone eq_refl). reflexivity. }
  unfold dict_get, evaluate_alt_text. rewrite Ha. cbn. rewrite Hc.
  reflexivity.
Qed.

Lemma link_keeps_issue dom_images screenshot t :
  Forall (alt_fields_agree blank) dom_images ->
  det_has_alt_text F t = PyBool false ->
  det_alt_text_quality F t = None ->
  exists t',
    link dom_images screenshot t = inr t'
    /\ is_text_issue F t' = true
    /\ det_region F t' = det_region F t
    /\ det_detected_text F t' = det_detected_text F t
    /\ (det_alt_text_quality F t' = None
        \/ det_alt_text_quality F t' = Some "Missing").
Proof.
  intros Hall Hh Hq. unfold link_with_dom.
  assert (Hsame : is_text_issue F t = true).
  { unfold is_text_issue. rewrite Hh. reflexivity. }
  destruct (match_image_with_dom (det_region F t) dom_images
              (width screenshot) (height screenshot)) as [d |] eqn:Em.
  - destruct (dict_truthy d).
    + rewrite (picked_image_is_missing dom_images _ _ _ d _ Hall Em).
      eexists. split; [reflexivity |].
      split; [unfold is_text_issue; cbn; apply orb_true_r |].
      cbn. auto.
    + exists t. auto 6.
  - exists t. auto 6.
Qed.

Lemma link_all_keeps_issues dom_images screenshot detections :
  Forall (alt_fields_agree blank) dom_images ->
  Forall (fun t => det_has_alt_text F t = PyBool false
                   /\ det_alt_text_quality F t = None) detections ->
  exists linked,
    link_list dom_images screenshot detections = inr linked
    /\ List.filter (is_text_issue F) linked = linked
    /\ map (det_region F) linked = map (det_region F) detections
    /\ map (det_detected_text F) linked
       = map (det_detected_text F) detections
    /\ Forall (fun t => det_alt_text_quality F t = None
                        \/ det_alt_text_quality F t = Some "Missing") linked.
Proof.
  intros Hall Hfresh.
  induction Hfresh as [| t rest [Hh Hq] _ IH].
  - exists []. repeat split; constructor.
  - destruct IH as (others & Hl & Hf & Hr & Ht & Hm).
    destruct (link_keeps_issue dom_images screenshot t Hall Hh Hq)
      as (t' & Hlink & Hissue & Hr' & Ht' & Hm').
    exists (t' :: others). cbn [link_all]. rewrite Hlink, Hl.
    split; [reflexivity |]. cbn [List.filter map]. rewrite Hissue, Hf.
    split; [reflexivity |].
    split; [rewrite Hr', Hr; reflexivity |].
    split; [rewrite Ht', Ht; reflexivity |].
    constructor; assumption.
Qed.

(** X15. In [main], with the images taken from [extract_images_info],
    every text that the detector finds in the screenshot ends up in
    [text_issues], whatever the page says: the image that
    [match_image_with_dom] picks never has an alternative text, so the
    evaluation is [Missing] (or there is no match at all) and the
    filter removes nothing.  The list of issues has the regions and
    texts of the detections, in order; the linking never raises; and
    the score loses 5 points for each detection. *)
Theorem every_detection_is_reported html_content screenshot :
  exists issues,
    issues_of_main screenshot (extracted html_content) = inr issues
    /\ map (det_region F) issues = map (det_region F) (detect screenshot)
    /\ map (det_detected_text F) issues
       = map (det_detected_text F) (detect screenshot)
    /\ Forall (fun t => det_alt_text_quality F t = None
                        \/ det_alt_text_quality F t = Some "Missing") issues
    /\ forall contrast colorblind,
         accessibility_score contrast (Z.of_nat (length issues)) colorblind
         = Z.max 0 (100 - 3 * contrast
                    - 5 * Z.of_nat (length (detect screenshot))
                    - 2 * colorblind).
Proof.
  assert (Hall : Forall (alt_fields_agree blank) (extracted html_content)).
  { unfold extract_images_info.
    destruct (BeautifulSoup html_content) as [e | soup]; [constructor |].
    apply Forall_app; split; apply Forall_forall; intros d Hd.
    - apply list_elem_of_fmap in Hd. destruct Hd as (img & -> & _).
      apply image_info_agrees.
    - apply list_elem_of_omap in Hd. destruct Hd as (element & _ & Hd).
      apply background_info_fields in Hd. destruct Hd as (Hh & He & Ha & _).
      exists false, false, EmptyString. repeat split; auto; discriminate. }
  destruct (link_all_keeps_issues (extracted html_content) screenshot
              (detect screenshot) Hall (detect_fresh screenshot))
    as (linked & Hl & Hf & Hr & Ht & Hm).
  exists linked. unfold text_issues_of_main. rewrite Hl, Hf.
  split; [reflexivity | split; [exact Hr | split; [exact Ht |]]].
  split; [exact Hm |].
  intros contrast colorblind. unfold accessibility_score.
  assert (length linked = length (detect screenshot)) as ->.
  { rewrite <- (length_map (det_region F) linked), Hr. apply length_map. }
  f_equal. lia.
Qed.

(** X16. [analyze_image_with_alt] never raises and returns the
    detections of the image with their regions and texts, in order.
    Without an alternative text ([None] or empty) they are returned as
    detected; otherwise all of them carry one and the same quality,
    recommendation and [has_alt_text], those of the evaluation of the
    alternative text against all detected texts joined by spaces. *)
Theorem analysis_marks_all_alike image alt_text :
  exists result,
    analyze image alt_text = inr result
    /\ map (det_region F) result = map (det_region F) (detect image)
    /\ map (det_detected_text F) result
       = map (det_detected_text F) (detect image)
    /\ (truthy_str alt_text = false -> result = detect image)
    /\ (forall alt, alt_text = Some alt -> truthy_str alt_text = true ->
        exists e,
          evaluate
            (String.concat " " (map (det_detected_text F) (detect image)))
            (Some (PyStr alt)) = inr e
          /\ Forall (fun t =>
               det_alt_text_quality F t = Some (ev_quality F e)
               /\ det_recommendation F t = Some (ev_recommendation F e)
               /\ det_has_alt_text F t = PyBool (ev_has_alt_text F e)
               /\ det_alt_text F t = Some (PyStr alt)) result).
Proof.
  unfold analyze_image_with_alt.
  assert (Heval : forall detected alt, exists e,
            evaluate detected (Some (PyStr alt)) = inr e).
  { intros detected alt. unfold evaluate_alt_text.
    repeat case_match; eexists; reflexivity. }
  destruct (detect image) as [| d rest] eqn:Ed.
  - exists []. repeat split; try reflexivity.
    intros alt _ _. destruct (Heval (String.concat " " []) alt) as (e & He).
    exists e. split; [exact He | constructor].
  - destruct alt_text as [alt |].
    + destruct (truthy_str (Some alt)) eqn:Et.
      * destruct (Heval (String.concat " "
                           (map (det_detected_text F) (d :: rest))) alt)
          as (e & He).
        rewrite He. eexists. split; [reflexivity |].
        split; [rewrite map_map; reflexivity |].
        split; [rewrite map_map; reflexivity |].
        split; [discriminate |].
        intros alt' [= <-] _. exists e. split; [exact He |].
        apply List.Forall_forall. intros t Ht. apply in_map_iff in Ht.
        destruct Ht as (t0 & <- & _). cbn. auto.
      * exists (d :: rest). repeat split; try reflexivity.
        intros alt' _ H. discriminate H.
    + exists (d :: rest). repeat split; try reflexivity.
      intros alt' H. discriminate H.
Qed.
End MainFacts.

(** ** Concrete runs of the text analysis *)

(** The sample reader on the sample document: the blank text is
    dropped, and the two texts that are left are both reported; the
    first [img] without a description is blamed for each of them. *)
Example sample_text_issues :
  match
    text_issues_of_main Z 0 100 (SampleText.below 30) (SampleText.below 60)
      (SampleText.above 20) SampleText.similarity SamplePage.blank
      Z Z.ltb Z.sub SampleText.whole SampleText.readtext
      {| width := 640; height := 480;
         getpixel := fun _ _ => (255, 255, 255) |}
      (extract_images_info SamplePage.parse SamplePage.blank
         SamplePage.no_size SamplePage.no_size SamplePage.url "<html>")
  with
  | inr issues =>
      map (fun t => (det_region Z t, det_detected_text Z t,
                     det_alt_text_quality Z t)) issues
  | inl _ => []
  end
  = [ ((8, 20, 102, 40), "SALE 50%", Some "Missing");
      ((5, 400, 85, 30), "Contact", Some "Missing") ].
Proof. vm_compute. reflexivity. Qed.

Lemma detections_enclose_their_boxes_witness :
  let t := {| det_region := (8, 20, 102, 40);
              det_detected_text := "SALE 50%";
              det_confidence := 93;
              det_has_alt_text := PyBool false;
              det_alt_text := None;
              det_alt_text_quality := None;
              det_recommendation := None |} in
  In t (detect_text_in_image Z (SampleText.above 20) SamplePage.blank
          Z Z.ltb Z.sub SampleText.whole SampleText.readtext
          {| width := 640; height := 480;
             getpixel := fun _ _ => (255, 255, 255) |})
  /\ exists bbox x y w h,
       det_region Z t = (x, y, w, h) /\ 0 <= w /\ 0 <= h
       /\ forall p, In p bbox -> x <= fst p <= x + w /\ y <= snd p <= y + h.
Proof.
  intros t.
  assert (H : In t (detect_text_in_image Z (SampleText.above 20)
                      SamplePage.blank Z Z.ltb Z.sub SampleText.whole
                      SampleText.readtext
                      {| width := 640; height := 480;
                         getpixel := fun _ _ => (255, 255, 255) |})).
  { left. reflexivity. }
  split; [exact H |].
  destruct (detections_enclose_their_boxes Z (SampleText.above 20)
              SamplePage.blank Z Z.ltb Z.sub SampleText.whole
              SampleText.readtext _ t H)
    as (_ & bbox & _ & _ & _ & _ & _ & _ & _ & Hwhole).
  destruct (Hwhole (fun z => z)) as (x & y & w & h & Hr & Hw & Hh & Hp).
  { split; reflexivity. }
  exists bbox, x, y, w, h. auto.
Defined.

(** A slanted box: the fractions are cut off, and the corner at
    x = 110.9 lies to the right of the region, which ends at 110. *)
Example slanted_box_is_cut_short :
  map (det_region Z)
    (detect_text_in_image Z (SampleText.above 20) SamplePage.blank
       Z Z.ltb Z.sub SampleText.tenths SampleText.slanted
       {| width := 640; height := 480;
          getpixel := fun _ _ => (255, 255, 255) |})
  = [(8, 20, 102, 40)].
Proof. vm_compute. reflexivity. Qed.

Lemma alt_text_quality_classes_witness :
  exists e,
    evaluate_alt_text Z 0 100 (SampleText.below 30) (SampleText.below 60)
      SampleText.similarity SamplePage.blank "SALE 50%"
      (Some (PyStr "Half price this week")) = inr e
    /\ ev_has_alt_text Z e = true
    /\ (ev_quality Z e = "Poor" \/ ev_quality Z e = "Average"
        \/ ev_quality Z e = "Good").
Proof.
  eexists. split; [reflexivity |].
  destruct (alt_text_quality_classes Z 0 100 (SampleText.below 30)
              (SampleText.below 60) SampleText.similarity SamplePage.blank
              "SALE 50%" (Some (PyStr "Half price this week")))
    as [H _].
  destruct (H _ eq_refl) as (_ & Hh & Hq & _).
  split; [exact Hh | exact (Hq eq_refl)].
Defined.
